(** * add_new_anime.py: the simulcast season importer

    A shallow embedding of [scripts/python/add_new_anime.py].  The script
    reads the system clock, pages through a catalogue API, reshapes every
    record, downloads the artwork and writes one JSON document.

    Python values are dynamically typed, so the embedding carries a [value]
    type for everything that comes out of [response.json()], and every
    operation that Python may refuse ([x[k]], [x.get], [x.capitalize()],
    ...) returns a [result].  The clock, the network and the file system are
    threaded through a state-and-exception monad [M]. *)

From Stdlib Require Import ZArith Lia Ascii String.
From stdpp Require Import base option list strings pretty gmap.

Local Open Scope Z_scope.

(** ** Python values *)

(** A float is carried opaquely: the script only tests floats for truth and
    prints them with [str]. *)
Record pyfloat := PyFloat { float_repr : string; float_nonzero : bool }.

#[warnings="-register-all"] Inductive value :=
| VNone
| VBool (b : bool)
| VInt (n : Z)
| VFloat (f : pyfloat)
| VStr (s : string)
| VList (l : list value)
| VDict (d : list (string * value)).

(** A dict is the list of its items, [list (string * value)]: it keeps the
    insertion order, and a key is looked up at its first entry. *)

Inductive exn :=
| KeyError | TypeError | AttributeError | ValueError | OSError
| RequestException.

(** The outcome of a computation: a value, a Python exception, or the
    exhaustion of the fuel that bounds the [while] loop of the fetcher. *)
Inductive result (A : Type) :=
| Ok (a : A)
| Raise (e : exn)
| OutOfFuel.
Arguments Ok {A} a.
Arguments Raise {A} e.
Arguments OutOfFuel {A}.

Definition result_bind {A B} (r : result A) (f : A → result B) : result B :=
  match r with
  | Ok a => f a
  | Raise e => Raise e
  | OutOfFuel => OutOfFuel
  end.

Fixpoint assoc (k : string) (d : list (string * value)) : option value :=
  match d with
  | [] => None
  | (k', v) :: d' => if String.eqb k k' then Some v else assoc k d'
  end.

(** [bool(x)] *)
Definition truthy (x : value) : bool :=
  match x with
  | VNone => false
  | VBool b => b
  | VInt n => negb (n =? 0)
  | VFloat f => float_nonzero f
  | VStr s => negb (String.eqb s "")
  | VList l => match l with [] => false | _ => true end
  | VDict d => match d with [] => false | _ => true end
  end.

(** [x[k]] with a string key: only a dict can answer. *)
Definition subscript (x : value) (k : string) : result value :=
  match x with
  | VDict d => match assoc k d with Some v => Ok v | None => Raise KeyError end
  | _ => Raise TypeError
  end.

(** [x.get(k, default)]: only a dict has the method. *)
Definition py_get (x : value) (k : string) (default : value) : result value :=
  match x with
  | VDict d => Ok (match assoc k d with Some v => v | None => default end)
  | _ => Raise AttributeError
  end.

(** Iteration, as [list.extend] performs it on its argument: a list gives
    its elements, a string its characters (one per character of the Rocq
    string), a dict its keys. *)
Fixpoint chars (s : string) : list value :=
  match s with
  | EmptyString => []
  | String c s' => VStr (String c EmptyString) :: chars s'
  end.

Definition iterate (x : value) : result (list value) :=
  match x with
  | VList l => Ok l
  | VStr s => Ok (chars s)
  | VDict d => Ok (map (λ kv, VStr (fst kv)) d)
  | _ => Raise TypeError
  end.

(** ** Strings *)

Definition is_upper (c : ascii) : bool :=
  (65 <=? Z.of_N (N_of_ascii c)) && (Z.of_N (N_of_ascii c) <=? 90).

Definition lower_char (c : ascii) : ascii :=
  if is_upper c then ascii_of_N (N_of_ascii c + 32) else c.

(** [s.lower()], on the ASCII labels the script applies it to. *)
Fixpoint lower (s : string) : string :=
  match s with
  | EmptyString => EmptyString
  | String c s' => String (lower_char c) (lower s')
  end.

(** [s.replace(old, new)] for a one-character [old]: every occurrence is
    replaced. *)
Fixpoint replace (old : ascii) (new : string) (s : string) : string :=
  match s with
  | EmptyString => EmptyString
  | String c s' =>
      if Ascii.eqb c old then new +:+ replace old new s'
      else String c (replace old new s')
  end.

(** [s.find(c) + 1]: the position after the first [c], or 0 when [s] has
    none. *)
Fixpoint find_succ (c : ascii) (s : string) : nat :=
  match s with
  | EmptyString => 0%nat
  | String c' s' =>
      if Ascii.eqb c' c then 1%nat
      else match find_succ c s' with 0%nat => 0%nat | S n => S (S n) end
  end.

(** ** posixpath *)

(** The text after the last slash. *)
Fixpoint basename (p : string) : string :=
  match p with
  | EmptyString => EmptyString
  | String c p' =>
      if existsb (Ascii.eqb "/"%char) (list_ascii_of_string p') then basename p'
      else if Ascii.eqb c "/"%char then p' else p
  end.

Definition has_slash (p : string) : bool :=
  existsb (Ascii.eqb "/"%char) (list_ascii_of_string p).

Fixpoint ends_with_slash (p : string) : bool :=
  match p with
  | EmptyString => false
  | String c EmptyString => Ascii.eqb c "/"%char
  | String _ p' => ends_with_slash p'
  end.

(** [os.path.join(a, b)] *)
Definition path_join (a b : string) : string :=
  match b with
  | String "/" _ => b
  | _ => if String.eqb a "" || ends_with_slash a then a +:+ b
         else a +:+ "/" +:+ b
  end.

(** The directories above [p]: every non-empty prefix of [p] that stops
    right before a slash. [seen] is the text already walked over. *)
Fixpoint ancestors (seen p : string) : list string :=
  match p with
  | EmptyString => []
  | String c p' =>
      (if Ascii.eqb c "/"%char && negb (String.eqb seen "") && negb (ends_with_slash seen)
       then [seen] else [])
      ++ ancestors (seen +:+ String c EmptyString) p'
  end.

(** The names of a path, from slash to slash; [cur] is the name being
    read: [a/b] has the names [a] and [b], [/a] the names [] (empty) and [a],
    [a/] the names [a] and [] (empty). *)
Fixpoint names_from (cur p : string) : list string :=
  match p with
  | EmptyString => [cur]
  | String c p' =>
      if Ascii.eqb c "/"%char then cur :: names_from "" p'
      else names_from (cur +:+ String c EmptyString) p'
  end.

Definition path_names (p : string) : list string := names_from "" p.

(** ** datetime *)

Record datetime := DateTime {
  year : Z; month : Z; day : Z;
  hour : Z; minute : Z; second : Z; microsecond : Z
}.

Definition is_leap (y : Z) : bool :=
  (y mod 4 =? 0) && (negb (y mod 100 =? 0) || (y mod 400 =? 0)).

Definition days_in_month (y m : Z) : Z :=
  if m =? 2 then (if is_leap y then 29 else 28)
  else if (m =? 4) || (m =? 6) || (m =? 9) || (m =? 11) then 30
  else 31.

Definition valid_date (y m d : Z) : bool :=
  (1 <=? y) && (y <=? 9999) && (1 <=? m) && (m <=? 12)
  && (1 <=? d) && (d <=? days_in_month y m).

Definition valid_time (h mi s us : Z) : bool :=
  (0 <=? h) && (h <=? 23) && (0 <=? mi) && (mi <=? 59)
  && (0 <=? s) && (s <=? 59) && (0 <=? us) && (us <=? 999999).

(** The constructor [datetime(year, month, day, hour, minute, second,
    microsecond)] checks the range of every field. *)
Definition mk_datetime (y m d h mi s us : Z) : result datetime :=
  if valid_date y m d && valid_time h mi s us
  then Ok (DateTime y m d h mi s us)
  else Raise ValueError.

Definition digit (c : ascii) : option Z :=
  let n := Z.of_N (N_of_ascii c) in
  if (48 <=? n) && (n <=? 57) then Some (n - 48) else None.

Definition digit_char (k : Z) : ascii := ascii_of_N (Z.to_N (48 + k)).

Definition two_digits (s : string) : option (Z * string) :=
  match s with
  | String a (String b rest) =>
      match digit a, digit b with
      | Some x, Some y => Some (10 * x + y, rest)
      | _, _ => None
      end
  | _ => None
  end.

Fixpoint all_digits (acc : Z) (s : string) : option Z :=
  match s with
  | EmptyString => Some acc
  | String c s' =>
      match digit c with
      | Some x => all_digits (10 * acc + x) s'
      | None => None
      end
  end.

(** [.fff] or [.ffffff], in microseconds; nothing at all counts as 0. *)
Definition parse_fraction (s : string) : option Z :=
  match s with
  | EmptyString => Some 0
  | String "." f =>
      if Nat.eqb (String.length f) 3 then Z.mul 1000 <$> all_digits 0 f
      else if Nat.eqb (String.length f) 6 then all_digits 0 f
      else None
  | _ => None
  end.

(** [HH[:MM[:SS[.fff[fff]]]]] *)
Definition parse_hh_mm_ss_ff (s : string) : option (Z * Z * Z * Z) :=
  match two_digits s with
  | Some (hh, EmptyString) => Some (hh, 0, 0, 0)
  | Some (hh, String ":" s1) =>
      match two_digits s1 with
      | Some (mm, EmptyString) => Some (hh, mm, 0, 0)
      | Some (mm, String ":" s2) =>
          match two_digits s2 with
          | Some (ss, s3) => (λ ff, (hh, mm, ss, ff)) <$> parse_fraction s3
          | None => None
          end
      | _ => None
      end
  | _ => None
  end.

(** The time text is cut at its first sign; what follows the sign is the
    UTC offset. *)
Fixpoint split_at_sign (s : string) : string * option string :=
  match s with
  | EmptyString => (EmptyString, None)
  | String c s' =>
      if Ascii.eqb c "+"%char || Ascii.eqb c "-"%char then (EmptyString, Some s')
      else let '(t, z) := split_at_sign s' in (String c t, z)
  end.

(** An offset is written [HH:MM], [HH:MM:SS] or [HH:MM:SS.ffffff] and lies
    strictly within a day. *)
Definition valid_offset (z : string) : bool :=
  (Nat.eqb (String.length z) 5 || Nat.eqb (String.length z) 8
   || Nat.eqb (String.length z) 15)
  && match parse_hh_mm_ss_ff z with
     | Some (hh, mm, ss, ff) =>
         ((hh * 3600 + mm * 60 + ss) * 1000000 + ff) <? 86400 * 1000000
     | None => false
     end.

Definition parse_isoformat_time (s : string) : option (Z * Z * Z * Z) :=
  let '(t, z) := split_at_sign s in
  match parse_hh_mm_ss_ff t, z with
  | Some comps, None => Some comps
  | Some comps, Some off => if valid_offset off then Some comps else None
  | None, _ => None
  end.

(** [YYYY-MM-DD] and what is left of the text. *)
Definition parse_isoformat_date (s : string) : option (Z * Z * Z * string) :=
  match s with
  | String y1 (String y2 s1) =>
      match two_digits (String y1 (String y2 EmptyString)), two_digits s1 with
      | Some (c, _), Some (y, String "-" s2) =>
          match two_digits s2 with
          | Some (m, String "-" s3) =>
              match two_digits s3 with
              | Some (d, rest) => Some (100 * c + y, m, d, rest)
              | None => None
              end
          | _ => None
          end
      | _, _ => None
      end
  | _ => None
  end.

(** [datetime.fromisoformat(s)], on the grammar
    [YYYY-MM-DD[*HH[:MM[:SS[.fff[fff]]]][+HH:MM[:SS[.ffffff]]]]] that the
    library documents up to Python 3.10, where [*] is any one character;
    later versions read these texts the same way, and some more that this
    model refuses.  The offset is checked and then plays no part: the
    script prints the date fields only. *)
Definition fromisoformat (s : string) : result datetime :=
  match parse_isoformat_date s with
  | Some (y, m, d, EmptyString) => mk_datetime y m d 0 0 0 0
  | Some (y, m, d, String _ t) =>
      match parse_isoformat_time t with
      | Some (hh, mm, ss, ff) => mk_datetime y m d hh mm ss ff
      | None => Raise ValueError
      end
  | None => Raise ValueError
  end.

Definition pad2 (n : Z) : string :=
  String (digit_char (n / 10)) (String (digit_char (n mod 10)) EmptyString).

Definition pad4 (n : Z) : string := pad2 (n / 100) +:+ pad2 (n mod 100).

(** [%Y] of [strftime]: CPython hands the format to the C library, and
    glibc prints the year as a plain decimal number, without leading zeros
    (year 99 gives [99], not [0099]). *)
Definition year_text (y : Z) : string := pretty y.

(** [dt.strftime("%Y-%m-%d")] *)
Definition strftime_ymd (dt : datetime) : string :=
  year_text (year dt) +:+ "-" +:+ pad2 (month dt) +:+ "-" +:+ pad2 (day dt).

(** ** The data the script produces *)

Record ImageDescriptor := {
  height : value;
  name : string;
  url : value;
  width : value;
  localPath : string
}.

Record FormattedAnimeRecord := {
  id : value;
  seriesID : value;
  titleEnglish : value;
  titleRomaji : value;
  dateStart : value;
  episodeCount : value;
  format : value;
  idKitsu : value;
  idMAL : string;
  season : string;
  keyVisuals : list ImageDescriptor;
  coverImages : list ImageDescriptor
}.

Record SeasonBatch := {
  anime : list FormattedAnimeRecord;
  batch_id : string;
  start : option FormattedAnimeRecord
}.

(** ** The world outside the process *)

Record Request := { req_url : value; req_params : list (string * value) }.

(** [json_body] is what [response.json()] decodes, when the body is JSON. *)
Record Response := {
  status_code : Z;
  content : string;
  json_body : option value
}.

(** A file holds the bytes of a download, or the document that [json.dump]
    has serialised. *)
Inductive File :=
| Binary (bytes : string)
| JsonDoc (doc : SeasonBatch).

Record World := {
  ticks : nat;            (* readings of the clock taken so far *)
  sent : list Request;    (* requests issued so far, the latest first *)
  dirs : gset string;     (* the directories that exist, resolved *)
  files : gmap string File; (* the files, by the path they were written at *)
  stdout : list string    (* the lines printed, the latest first *)
}.

(** What the run cannot decide: the clock at each reading, the server's
    answer to a request given the requests before it ([None]: the request
    raises), and the library functions carried as they are: the [path]
    component of [urllib.parse.urlparse], [str.capitalize], and [repr] on
    lists and dicts. *)
Record Runtime := {
  clock : nat → datetime;
  serve : list Request → Request → option Response;
  urlparse_path : string → string;
  capitalize : string → string;
  container_repr : value → string
}.

(** ** State and exceptions *)

Definition M (A : Type) : Type := World → result (A * World).

Definition ret {A} (a : A) : M A := λ w, Ok (a, w).

Definition bind {A B} (m : M A) (f : A → M B) : M B :=
  λ w, match m w with
       | Ok (a, w') => f a w'
       | Raise e => Raise e
       | OutOfFuel => OutOfFuel
       end.

(** A computation that touches no state. *)
Definition pure {A} (r : result A) : M A :=
  λ w, match r with
       | Ok a => Ok (a, w)
       | Raise e => Raise e
       | OutOfFuel => OutOfFuel
       end.

(** What a run returns, the world left aside. *)
Definition outcome {A} (r : result (A * World)) : result A :=
  match r with
  | Ok (a, _) => Ok a
  | Raise e => Raise e
  | OutOfFuel => OutOfFuel
  end.

Declare Scope py_scope.
Delimit Scope py_scope with py.
Notation "x <- m ;; k" := (bind m (λ x, k))
  (at level 100, m at next level, right associativity) : py_scope.
Notation "m ;;; k" := (bind m (λ _, k))
  (at level 100, right associativity) : py_scope.
Local Open Scope py_scope.

Fixpoint mapM {A B} (f : A → M B) (l : list A) : M (list B) :=
  match l with
  | [] => ret []
  | a :: l' => b <- f a;; bs <- mapM f l';; ret (b :: bs)
  end.

(** ** File system *)

(** Paths are resolved name by name, as the system does. A [Place] is a
    directory reached on the way: under the root or under the working
    directory, the names below it, where [..] stands for a step above the
    working directory. [dirs] holds the directories by the text of their
    place ([2024/images], [../covers], [/tmp/x]); the root, the working
    directory and the directories above it are there without being
    listed. *)
Record Place := { absolute : bool; below : list string }.

Definition place_text (pl : Place) : string :=
  (if absolute pl then "/" else "") +:+ String.concat "/" (below pl).

Definition place_exists (ds : gset string) (pl : Place) : bool :=
  forallb (String.eqb "..") (below pl) || bool_decide (place_text pl ∈ ds).

(** The directory above: one name less, or one step further above the
    working directory; the root is its own parent. *)
Definition parent (pl : Place) : Place :=
  match reverse (below pl) with
  | [] => if absolute pl then pl else {| absolute := false; below := [".."] |}
  | n :: _ =>
      if String.eqb n ".."
      then {| absolute := absolute pl; below := below pl ++ [".."] |}
      else {| absolute := absolute pl; below := removelast (below pl) |}
  end.

(** One name of a path: an empty name (a doubled or final slash) and [.]
    stay, [..] goes up, any other name must be a directory. *)
Definition enter (ds : gset string) (pl : Place) (n : string) : option Place :=
  if String.eqb n "" || String.eqb n "." then Some pl
  else if String.eqb n ".." then Some (parent pl)
  else
    let pl' := {| absolute := absolute pl; below := below pl ++ [n] |} in
    if place_exists ds pl' then Some pl' else None.

Fixpoint resolve (ds : gset string) (pl : Place) (ns : list string)
  : option Place :=
  match ns with
  | [] => Some pl
  | n :: ns' =>
      match enter ds pl n with
      | Some pl' => resolve ds pl' ns'
      | None => None
      end
  end.

Definition origin (p : string) : Place :=
  {| absolute := String.prefix "/" p; below := [] |}.

(** [os.path.isdir(p)]: every name of [p] leads to a directory. *)
Definition is_dir (p : string) (w : World) : bool :=
  negb (String.eqb p "")
  && match resolve (dirs w) (origin p) (path_names p) with
     | Some _ => true
     | None => false
     end.

Definition is_file (p : string) (w : World) : bool :=
  match files w !! p with Some _ => true | None => false end.

(** [os.path.exists(p)] *)
Definition path_exists (p : string) : M bool :=
  λ w, Ok (is_dir p w || is_file p w, w).

(** [os.makedirs(p)]: the missing directories above [p] are made, then [p]
    itself, which must not exist yet; no directory is made below a file.
    The script makes the folders [<year>] and [<year>/images], paths of
    plain names, which are the text of their own place. *)
Definition makedirs (p : string) : M unit :=
  λ w, if String.eqb p "" then Raise OSError
       else if existsb (λ a, is_file a w) (ancestors "" p) then Raise OSError
       else if is_dir p w || is_file p w then Raise OSError
       else Ok (tt, {| ticks := ticks w; sent := sent w;
                       dirs := dirs w ∪ list_to_set (ancestors "" p) ∪ {[ p ]};
                       files := files w; stdout := stdout w |}).

(** A file can be opened for writing under a name that is a file's (not
    empty, as after a final slash, and not [.] or [..]), when the path up
    to that name leads to a directory and the path itself is not a
    directory's. Access rights, symbolic links and the limits on the
    length of a name are left out. *)
Definition file_name (n : string) : bool :=
  negb (String.eqb n "") && negb (String.eqb n ".")
  && negb (String.eqb n "..").

Definition can_write (p : string) (w : World) : bool :=
  file_name (basename p)
  && match resolve (dirs w) (origin p) (removelast (path_names p)) with
     | Some _ => true
     | None => false
     end
  && negb (is_dir p w).

(** [with open(p, mode) as f: ...] writing [c]: the file is replaced. *)
Definition write_file (p : string) (c : File) : M unit :=
  λ w, if can_write p w
       then Ok (tt, {| ticks := ticks w; sent := sent w; dirs := dirs w;
                       files := <[ p := c ]> (files w); stdout := stdout w |})
       else Raise OSError.

Definition print (line : string) : M unit :=
  λ w, Ok (tt, {| ticks := ticks w; sent := sent w; dirs := dirs w;
                  files := files w; stdout := line :: stdout w |}).

Declare Scope res_scope.
Delimit Scope res_scope with res.
Notation "x <- m ;; k" := (result_bind m (λ x, k))
  (at level 100, m at next level, right associativity) : res_scope.

(** ** The script *)

Section Program.
Context (rt : Runtime).

(** [str(x)] *)
Definition str (x : value) : string :=
  match x with
  | VNone => "None"
  | VBool b => if b then "True" else "False"
  | VInt n => pretty n
  | VFloat f => float_repr f
  | VStr s => s
  | VList _ | VDict _ => container_repr rt x
  end.

(** [x.capitalize()]: only a string has the method. *)
Definition py_capitalize (x : value) : result string :=
  match x with
  | VStr s => Ok (capitalize rt s)
  | _ => Raise AttributeError
  end.

(** [datetime.now()] *)
Definition datetime_now : M datetime :=
  λ w, Ok (clock rt (ticks w),
           {| ticks := S (ticks w); sent := sent w; dirs := dirs w;
              files := files w; stdout := stdout w |}).

(** [requests.get(url, params=params)] *)
Definition requests_get (url : value) (params : list (string * value))
  : M Response :=
  λ w, let q := {| req_url := url; req_params := params |} in
       match serve rt (sent w) q with
       | Some r => Ok (r, {| ticks := ticks w; sent := q :: sent w;
                             dirs := dirs w; files := files w;
                             stdout := stdout w |})
       | None => Raise RequestException
       end.

(** [response.json()] *)
Definition response_json (r : Response) : result value :=
  match json_body r with
  | Some v => Ok v
  | None => Raise ValueError
  end.

Definition get_current_season : M string :=
  now <- datetime_now;;
  let m := month now in
  if existsb (Z.eqb m) [1; 2; 3] then ret "Winter"
  else if existsb (Z.eqb m) [4; 5; 6] then ret "Spring"
  else if existsb (Z.eqb m) [7; 8; 9] then ret "Summer"
  else ret "Fall".

Definition get_season_start_date : M datetime :=
  now <- datetime_now;;
  let y := year now in
  if existsb (Z.eqb (month now)) [1; 2; 3]
  then pure (mk_datetime y 1 1 0 0 0 0)
  else if existsb (Z.eqb (month now)) [4; 5; 6]
  then pure (mk_datetime y 4 1 0 0 0 0)
  else if existsb (Z.eqb (month now)) [7; 8; 9]
  then pure (mk_datetime y 7 1 0 0 0 0)
  else pure (mk_datetime y 10 1 0 0 0 0).

(** The [while url:] loop of [fetch_simulcast_anime]; one unit of fuel
    per page. *)
Fixpoint fetch_pages (fuel : nat) (url : value)
    (params : list (string * value)) (anime_list : list value)
  : M (list value) :=
  if truthy url then
    match fuel with
    | O => λ _, OutOfFuel
    | S fuel' =>
        response <- requests_get url params;;
        data <- pure (response_json response);;
        page <- pure (subscript data "data");;
        items <- pure (iterate page);;
        links <- pure (subscript data "links");;
        next <- pure (py_get links "next" VNone);;
        fetch_pages fuel' next [] (anime_list ++ items)
    end
  else ret anime_list.

Definition api_url : string := "https://kitsu.io/api/edge/anime".

Definition fetch_simulcast_anime (fuel : nat) : M (list value) :=
  season_start <- get_season_start_date;;
  current_season <- get_current_season;;
  let params :=
    [ ("filter[status]", VStr "current");
      ("filter[seasonYear]", VInt (year season_start));
      ("filter[season]", VStr (lower current_season));
      ("page[limit]", VInt 20);
      ("sort", VStr "-userCount") ] in
  fetch_pages fuel (VStr api_url) params [].

Definition format_date (date_string : value) : result value :=
  if truthy date_string then
    match date_string with
    | VStr s =>
        (dt <- fromisoformat (replace "Z" "+00:00" s);;
         Ok (VStr (strftime_ymd dt)))%res
    | _ => Raise AttributeError
    end
  else Ok VNone.

Definition download_image (url : value) (folder : string)
  : M (option string) :=
  if negb (truthy url) then ret None
  else
    match url with
    | VStr u =>
        let filename := basename (urlparse_path rt u) in
        let file_path := path_join folder filename in
        response <- requests_get url [];;
        if status_code response =? 200 then
          write_file file_path (Binary (content response));;;
          ret (Some file_path)
        else ret None
    | _ => λ _, Raise AttributeError
    end.

(** [image.get("meta", {}).get("dimensions", {}).get(size, {}).get(key, 0)] *)
Definition dimension (image : value) (size key : string) : result value :=
  (meta <- py_get image "meta" (VDict []);;
   dimensions <- py_get meta "dimensions" (VDict []);;
   of_size <- py_get dimensions size (VDict []);;
   py_get of_size key (VInt 0))%res.

Definition poster_sizes : list string :=
  ["tiny"; "small"; "medium"; "large"; "original"].

Definition cover_sizes : list string :=
  ["tiny"; "small"; "large"; "original"].

(** The [for size in sizes:] loop, shared by posters ([label] is
    ["poster_"]) and covers (["cover_"]); [acc] is the list appended to. *)
Fixpoint collect_images (label : string) (image : value)
    (images_folder : string) (sizes : list string)
    (acc : list ImageDescriptor) : M (list ImageDescriptor) :=
  match sizes with
  | [] => ret acc
  | size :: rest =>
      present <- pure (py_get image size VNone);;
      if truthy present then
        u <- pure (subscript image size);;
        local_path <- download_image u images_folder;;
        match local_path with
        | Some p =>
            if negb (String.eqb p "") then
              h <- pure (dimension image size "height");;
              w <- pure (dimension image size "width");;
              collect_images label image images_folder rest
                (acc ++ [ {| height := h; name := label +:+ size; url := u;
                             width := w; localPath := p |} ])
            else collect_images label image images_folder rest acc
        | None => collect_images label image images_folder rest acc
        end
      else collect_images label image images_folder rest acc
  end.

(** [x or {}] *)
Definition or_empty (x : value) : value :=
  if truthy x then x else VDict [].

(** The episode count and the dictionary literal [formatted_data = {...}],
    its two image lists still empty. *)
Definition formatted_data (anime_data attributes : value)
  : result FormattedAnimeRecord :=
  (episode_count <- py_get attributes "episodeCount" VNone;;
   let episode_count :=
     match episode_count with VNone => VStr "None" | _ => episode_count end in
   id_ <- subscript anime_data "id";;
   series_id <- subscript anime_data "id";;
   titles <- py_get attributes "titles" (VDict []);;
   title_english <- py_get titles "en" (VStr "");;
   titles' <- py_get attributes "titles" (VDict []);;
   title_romaji <- py_get titles' "en_jp" (VStr "");;
   start_date <- py_get attributes "startDate" VNone;;
   date_start <- format_date start_date;;
   subtype <- py_get attributes "subtype" (VStr "");;
   id_kitsu <- subscript anime_data "id";;
   mappings <- py_get attributes "mappings" (VDict []);;
   mal <- py_get mappings "myanimelist/anime" (VStr "");;
   season_name <- py_get attributes "season" (VStr "");;
   season_cap <- py_capitalize season_name;;
   Ok {| id := id_; seriesID := series_id;
         titleEnglish := title_english; titleRomaji := title_romaji;
         dateStart := date_start; episodeCount := episode_count;
         format := subtype; idKitsu := id_kitsu; idMAL := str mal;
         season := season_cap; keyVisuals := []; coverImages := [] |})%res.

Definition extract_anime_data (anime_data : value) (images_folder : string)
  : M FormattedAnimeRecord :=
  attributes <- pure (subscript anime_data "attributes");;
  data <- pure (formatted_data anime_data attributes);;
  poster <- pure (py_get attributes "posterImage" VNone);;
  key_visuals <-
    collect_images "poster_" (or_empty poster) images_folder poster_sizes
      (keyVisuals data);;
  cover <- pure (py_get attributes "coverImage" VNone);;
  cover_images <-
    collect_images "cover_" (or_empty cover) images_folder cover_sizes
      (coverImages data);;
  ret {| id := id data; seriesID := seriesID data;
         titleEnglish := titleEnglish data; titleRomaji := titleRomaji data;
         dateStart := dateStart data; episodeCount := episodeCount data;
         format := format data; idKitsu := idKitsu data; idMAL := idMAL data;
         season := season data; keyVisuals := key_visuals;
         coverImages := cover_images |}.

Definition save_to_file (data : SeasonBatch) (filename : string) : M unit :=
  now <- datetime_now;;
  let folder_name := str (VInt (year now)) in
  found <- path_exists folder_name;;
  (if negb found then makedirs folder_name else ret tt);;;
  let file_path := path_join folder_name filename in
  write_file file_path (JsonDoc data);;;
  print ("Data saved to " +:+ file_path).

Definition main (fuel : nat) : M unit :=
  print "Fetching current simulcast season anime...";;;
  anime_list <- fetch_simulcast_anime fuel;;
  now <- datetime_now;;
  let folder_name := str (VInt (year now)) in
  let images_folder := path_join folder_name "images" in
  found <- path_exists images_folder;;
  (if negb found then makedirs images_folder else ret tt);;;
  formatted_anime_list <-
    mapM (λ anime, extract_anime_data anime images_folder) anime_list;;
  id_season <- get_current_season;;
  id_now <- datetime_now;;
  let output :=
    {| anime := formatted_anime_list;
       batch_id := "simulcast_" +:+ lower id_season +:+ "_"
                   +:+ str (VInt (year id_now));
       start := head formatted_anime_list |} in
  print ("Found " +:+ str (VInt (Z.of_nat (length formatted_anime_list)))
         +:+ " anime in the current simulcast season.");;;
  file_season <- get_current_season;;
  file_now <- datetime_now;;
  let filename := "simulcast_" +:+ lower file_season +:+ "_"
                  +:+ str (VInt (year file_now)) +:+ ".json" in
  save_to_file output filename.

End Program.

(** ** A sample run

    A clock in April 2024 and a server with two pages, one image that
    downloads and one that does not. *)

Module Demo.

Fixpoint drop_host (s : string) : string :=
  match s with
  | EmptyString => EmptyString
  | String c s' => if Ascii.eqb c "/"%char then s else drop_host s'
  end.

(** Enough of [urlparse] for [scheme://host/path] addresses. *)
Fixpoint url_path (s : string) : string :=
  match s with
  | String "/" (String "/" s') => drop_host s'
  | String _ s' => url_path s'
  | EmptyString => EmptyString
  end.

Definition upper_char (c : ascii) : ascii :=
  let n := Z.of_N (N_of_ascii c) in
  if (97 <=? n) && (n <=? 122) then ascii_of_N (N_of_ascii c - 32) else c.

Definition ascii_capitalize (s : string) : string :=
  match s with
  | EmptyString => EmptyString
  | String c s' => String (upper_char c) (lower s')
  end.

Definition image (size link : string) : value :=
  VDict [ (size, VStr link);
          ("meta", VDict [ ("dimensions",
             VDict [ (size, VDict [ ("width", VInt 390);
                                    ("height", VInt 554) ]) ]) ]) ].

Definition show_a_mappings : list (string * value) :=
  [ ("myanimelist/anime", VNone) ].

Definition show_a_attributes : list (string * value) :=
  [ ("titles", VDict [ ("en", VStr "Show A") ]);
    ("startDate", VStr "2024-04-01T00:00:00Z");
    ("episodeCount", VInt 12);
    ("mappings", VDict show_a_mappings);
    ("season", VStr "spring");
    ("posterImage", image "medium" "http://x/img.jpg");
    ("coverImage", image "medium" "http://x/img.jpg") ].

Definition show_a : value :=
  VDict [ ("id", VStr "42"); ("attributes", VDict show_a_attributes) ].

Definition show_b_attributes : list (string * value) :=
  [ ("episodeCount", VNone);
    ("posterImage", image "tiny" "http://x/missing.jpg");
    ("coverImage", image "large" "http://x/img.jpg") ].

Definition show_b : value :=
  VDict [ ("id", VStr "43"); ("attributes", VDict show_b_attributes) ].

Definition show_c : value :=
  VDict [ ("id", VStr "44"); ("attributes", VDict []) ].

Definition page_2 : string := "https://kitsu.io/api/edge/anime?page=2".

Definition page (items : list value) (links : list (string * value))
  : Response :=
  {| status_code := 200; content := "";
     json_body := Some (VDict [ ("data", VList items);
                                ("links", VDict links) ]) |}.

Definition server (history : list Request) (q : Request) : option Response :=
  match req_url q with
  | VStr u =>
      if String.eqb u api_url
      then Some (page [show_a; show_b] [ ("next", VStr page_2) ])
      else if String.eqb u page_2 then Some (page [show_c] [])
      else if String.eqb u "http://x/img.jpg"
      then Some {| status_code := 200; content := "JFIF"; json_body := None |}
      else Some {| status_code := 404; content := ""; json_body := None |}
  | _ => None
  end.

Definition rt : Runtime :=
  {| clock := λ _, DateTime 2024 4 15 9 30 0 0;
     serve := server;
     urlparse_path := url_path;
     capitalize := ascii_capitalize;
     container_repr := λ _, "[...]" |}.

(** The same, on a server that has no image at all. *)
Definition rt_without_images : Runtime :=
  {| clock := clock rt;
     serve := λ _ _, Some {| status_code := 404; content := "";
                             json_body := None |};
     urlparse_path := urlparse_path rt;
     capitalize := capitalize rt;
     container_repr := container_repr rt |}.

Definition fresh : World :=
  {| ticks := 0; sent := []; dirs := ∅; files := ∅; stdout := [] |}.

(** The world once [main] has made the image folder. *)
Definition ready : World :=
  {| ticks := 0; sent := []; dirs := {[ "2024"; "2024/images" ]};
     files := ∅; stdout := [] |}.

End Demo.

(** ** Vocabulary of the properties *)

(** [l] holds a descriptor whose name is [label] followed by [size]. *)
Definition has_descriptor (label size : string) (l : list ImageDescriptor)
  : Prop :=
  ∃ d, d ∈ l ∧ name d = label +:+ size.

(** A run of the script only ever adds downloads: from [w] to [w'] the clock
    readings and the directories are the same and every JSON document of
    [w'] was already in [w]. *)
Definition only_downloads (w w' : World) : Prop :=
  ticks w' = ticks w ∧ dirs w' = dirs w ∧ stdout w' = stdout w
  ∧ ∀ p d, files w' !! p = Some (JsonDoc d) → files w !! p = Some (JsonDoc d).

(** The text [YYYY-MM-DDTHH:MM:SSZ] of a date and a time of day. *)
Definition iso_z (y mo d h mi s : Z) : string :=
  pad4 y +:+ "-" +:+ pad2 mo +:+ "-" +:+ pad2 d +:+ "T"
  +:+ pad2 h +:+ ":" +:+ pad2 mi +:+ ":" +:+ pad2 s +:+ "Z".

(** The text [YYYY-MM-DD] of a date. *)
Definition ymd (y mo d : Z) : string :=
  pad4 y +:+ "-" +:+ pad2 mo +:+ "-" +:+ pad2 d.

(** The day as [strftime("%Y-%m-%d")] prints it: the year without leading
    zeros, the month and the day with two digits. *)
Definition day_text (y mo d : Z) : string :=
  year_text y +:+ "-" +:+ pad2 mo +:+ "-" +:+ pad2 d.

(** The digits of a year from 0 to 9999, without leading zeros. *)
Definition year_digits (y : Z) : string :=
  if y <? 10 then String (digit_char y) ""
  else if y <? 100 then pad2 y
  else if y <? 1000 then String (digit_char (y / 100)) (pad2 (y mod 100))
  else pad4 y.

(** The world after the request [q] was answered. *)
Definition after_request (q : Request) (w : World) : World :=
  {| ticks := ticks w; sent := q :: sent w; dirs := dirs w;
     files := files w; stdout := stdout w |}.

(** The world after [c] was written at [p]. *)
Definition after_write (p : string) (c : File) (w : World) : World :=
  {| ticks := ticks w; sent := sent w; dirs := dirs w;
     files := <[ p := c ]> (files w); stdout := stdout w |}.

(** The request [requests.get(url)] of an image. *)
Definition image_request (u : string) : Request :=
  {| req_url := VStr u; req_params := [] |}.

(** Every download has the same outcome each time: the server gives the
    request of an image the same status whatever came before. *)
Definition steady (rt : Runtime) : Prop :=
  ∀ h h' u,
    status_code <$> serve rt h (image_request u)
    = status_code <$> serve rt h' (image_request u).

(** The download for [size] returned a path: [size] is the [k]-th of
    [sizes], the image has a true address [u] for it, and
    [download_image u] returned a path in the world [w_k] that the loop had
    reached, from [w], after its first [k] sizes. *)
Definition downloaded (rt : Runtime) (label : string) (image : value)
    (folder : string) (sizes : list string) (w : World) (size : string)
  : Prop :=
  ∃ (k : nat) u acc_k w_k p w_k',
    sizes !! k = Some size
    ∧ py_get image size VNone = Ok u ∧ truthy u = true
    ∧ collect_images rt label image folder (take k sizes) [] w
      = Ok (acc_k, w_k)
    ∧ download_image rt u folder w_k = Ok (Some p, w_k').

(** The download for [size] returned no path, in the same sense. *)
Definition download_failed (rt : Runtime) (label : string) (image : value)
    (folder : string) (sizes : list string) (w : World) (size : string)
  : Prop :=
  ∃ (k : nat) u acc_k w_k w_k',
    sizes !! k = Some size
    ∧ py_get image size VNone = Ok u ∧ truthy u = true
    ∧ collect_images rt label image folder (take k sizes) [] w
      = Ok (acc_k, w_k)
    ∧ download_image rt u folder w_k = Ok (None, w_k').

(** One round of the loop over the sizes, from [w] to [w1]: either nothing
    is appended ([od] is [None]), because the image has no true address for
    [size] or because its download returned no path, or the download
    returned a path and the descriptor [d] is appended. *)
Definition round (rt : Runtime) (label : string) (image : value)
    (folder size : string) (w : World) (od : option ImageDescriptor)
    (w1 : World) : Prop :=
  ∃ u,
    py_get image size VNone = Ok u
    ∧ match od with
      | None =>
          (truthy u = false ∧ w1 = w)
          ∨ (truthy u = true ∧ download_image rt u folder w = Ok (None, w1))
      | Some d =>
          truthy u = true
          ∧ download_image rt u folder w = Ok (Some (localPath d), w1)
          ∧ name d = label +:+ size ∧ url d = u
          ∧ dimension image size "height" = Ok (height d)
          ∧ dimension image size "width" = Ok (width d)
      end.

(** The world after one reading of the clock. *)
Definition after_reading (w : World) : World :=
  {| ticks := S (ticks w); sent := sent w; dirs := dirs w;
     files := files w; stdout := stdout w |}.

(** The world after the requests [qs] were answered, the first of [qs]
    first. *)
Definition after_requests (qs : list Request) (w : World) : World :=
  foldl (λ w q, after_request q w) w qs.

(** The first request of the fetcher, for the year and the season it has
    resolved. *)
Definition first_request (y : Z) (season_label : string) : Request :=
  {| req_url := VStr api_url;
     req_params :=
       [ ("filter[status]", VStr "current");
         ("filter[seasonYear]", VInt y);
         ("filter[season]", VStr (lower season_label));
         ("page[limit]", VInt 20);
         ("sort", VStr "-userCount") ] |}.

(** The request of a next page: its address and nothing else. *)
Definition next_request (next : value) : Request :=
  {| req_url := next; req_params := [] |}.

(** After the requests [h] the server answers [q] with a JSON object whose
    "data" is the array [items] and whose "links" is the object [links]. *)
Definition answers (rt : Runtime) (h : list Request) (q : Request)
    (items : list value) (links : list (string * value)) : Prop :=
  ∃ resp data,
    serve rt h q = Some resp ∧ json_body resp = Some data
    ∧ subscript data "data" = Ok (VList items)
    ∧ subscript data "links" = Ok (VDict links).

(** Asked [q] after [h], the server has the pages [more], each with its
    records and the true address of the next page, and then a last page
    whose links have no "next". *)
Fixpoint paginates (rt : Runtime) (h : list Request) (q : Request)
    (more : list (list value * value)) (last : list value) : Prop :=
  match more with
  | [] => ∃ links, answers rt h q last links ∧ assoc "next" links = None
  | (items, next) :: more' =>
      ∃ links,
        answers rt h q items links
        ∧ assoc "next" links = Some next ∧ truthy next = true
        ∧ paginates rt (q :: h) (next_request next) more' last
  end.

(** From [w] to [w'] the count of clock readings has not gone down and no
    JSON document was written. *)
Definition no_document (w w' : World) : Prop :=
  (ticks w ≤ ticks w')%nat
  ∧ ∀ p d, files w' !! p = Some (JsonDoc d) → files w !! p = Some (JsonDoc d).

(** ** Vocabulary of the further properties *)

(** The request that the loop over the sizes sends for [size]: none unless
    the image has a true address for it. *)
Definition request_for (image : value) (size : string) : option Request :=
  match py_get image size VNone with
  | Ok (VStr u) => if truthy (VStr u) then Some (image_request u) else None
  | _ => None
  end.

(** The requests for [sizes], in their order. *)
Definition requested (image : value) (sizes : list string) : list Request :=
  omap (request_for image) sizes.

(** [d] is the descriptor of [size]: its name, its address [image[size]],
    its dimensions from the image's meta data, and as local path the folder
    joined with the last segment of the address's path. *)
Definition describes (rt : Runtime) (label : string) (image : value)
    (folder size : string) (d : ImageDescriptor) : Prop :=
  name d = label +:+ size
  ∧ subscript image size = Ok (url d)
  ∧ dimension image size "height" = Ok (height d)
  ∧ dimension image size "width" = Ok (width d)
  ∧ ∃ u, url d = VStr u
         ∧ localPath d = path_join folder (basename (urlparse_path rt u)).

(** From [w] to [w'] the run has only downloaded into [folder]: the clock
    readings, the directories and the printed lines are the same, and a
    path whose file has changed holds downloaded bytes and is the folder
    joined with a name without slash. *)
Definition downloads_into (folder : string) (w w' : World) : Prop :=
  ticks w' = ticks w ∧ dirs w' = dirs w ∧ stdout w' = stdout w
  ∧ ∀ p, files w' !! p = files w !! p
         ∨ ∃ c file_name,
             files w' !! p = Some (Binary c)
             ∧ has_slash file_name = false
             ∧ p = path_join folder file_name.

(** What the loop of the fetcher reads in a response: the records of its
    "data" and the value of "next" in its "links" ([None] when absent). *)
Definition read_page (resp : Response) : result (list value * value) :=
  (data <- response_json resp;;
   page <- subscript data "data";;
   items <- iterate page;;
   links <- subscript data "links";;
   next <- py_get links "next" VNone;;
   Ok (items, next))%res.

(** Asked [q] after [h], the server gives the pages [pages], one after the
    other: every page is read with its records and its "next", the next
    page is asked at that address as long as it is true, and the last
    page is the first whose "next" is not. *)
Fixpoint fetched (rt : Runtime) (h : list Request) (q : Request)
    (pages : list (list value * value)) : Prop :=
  match pages with
  | [] => False
  | (items, next) :: rest =>
      ∃ resp,
        serve rt h q = Some resp ∧ read_page resp = Ok (items, next)
        ∧ if truthy next
          then fetched rt (q :: h) (next_request next) rest
          else rest = []
  end.

(** The same without an end: every page of [pages] has a true "next". *)
Fixpoint turned (rt : Runtime) (h : list Request) (q : Request)
    (pages : list (list value * value)) : Prop :=
  match pages with
  | [] => True
  | (items, next) :: rest =>
      ∃ resp,
        serve rt h q = Some resp ∧ read_page resp = Ok (items, next)
        ∧ truthy next = true
        ∧ turned rt (q :: h) (next_request next) rest
  end.

(** The requests that were answered with [pages], from [q] on. *)
Fixpoint page_requests (q : Request) (pages : list (list value * value))
  : list Request :=
  match pages with
  | [] => []
  | (_, next) :: rest => q :: page_requests (next_request next) rest
  end.

(** The request that follows [pages]. *)
Fixpoint request_after (q : Request) (pages : list (list value * value))
  : Request :=
  match pages with
  | [] => q
  | (_, next) :: rest => request_after (next_request next) rest
  end.

(** Whatever it is asked, the server answers with a page that has a true
    "next". *)
Definition endless (rt : Runtime) : Prop :=
  ∀ h q, ∃ resp items next,
    serve rt h q = Some resp ∧ read_page resp = Ok (items, next)
    ∧ truthy next = true.

(** The label that [get_current_season] gives to month [m]. *)
Definition season_label (m : Z) : string :=
  if existsb (Z.eqb m) [1; 2; 3] then "Winter"
  else if existsb (Z.eqb m) [4; 5; 6] then "Spring"
  else if existsb (Z.eqb m) [7; 8; 9] then "Summer"
  else "Fall".

(** ** More sample servers *)

Module Servers.

(** The record that the sample run extracts from [Demo.show_a]. *)
Definition poster_medium : ImageDescriptor :=
  {| height := VInt 554; name := "poster_medium";
     url := VStr "http://x/img.jpg"; width := VInt 390;
     localPath := "2024/images/img.jpg" |}.

Definition show_a_record : FormattedAnimeRecord :=
  {| id := VStr "42"; seriesID := VStr "42";
     titleEnglish := VStr "Show A"; titleRomaji := VStr "";
     dateStart := VStr "2024-04-01"; episodeCount := VInt 12;
     format := VStr ""; idKitsu := VStr "42"; idMAL := "None";
     season := "Spring"; keyVisuals := [poster_medium];
     coverImages := [] |}.

(** A server whose second page is not JSON. *)
Definition broken_rt : Runtime :=
  {| clock := clock Demo.rt;
     serve := λ h q,
       match req_url q with
       | VStr u =>
           if String.eqb u api_url then serve Demo.rt h q
           else Some {| status_code := 200; content := "<html>";
                        json_body := None |}
       | _ => None
       end;
     urlparse_path := urlparse_path Demo.rt;
     capitalize := capitalize Demo.rt;
     container_repr := container_repr Demo.rt |}.

(** A server that always has a next page. *)
Definition endless_rt : Runtime :=
  {| clock := clock Demo.rt;
     serve := λ _ _, Some (Demo.page [Demo.show_c]
                             [ ("next", VStr Demo.page_2) ]);
     urlparse_path := urlparse_path Demo.rt;
     capitalize := capitalize Demo.rt;
     container_repr := container_repr Demo.rt |}.

(** The sample server, every answer with the status 500. *)
Definition failing_status_rt : Runtime :=
  {| clock := clock Demo.rt;
     serve := λ h q,
       (λ r, {| status_code := 500; content := content r;
                json_body := json_body r |}) <$> serve Demo.rt h q;
     urlparse_path := urlparse_path Demo.rt;
     capitalize := capitalize Demo.rt;
     container_repr := container_repr Demo.rt |}.

End Servers.

(** * Properties *)

(** ** Running the monad *)

Lemma bind_Ok {A B} (m : M A) (f : A → M B) w b w' :
  bind m f w = Ok (b, w') ↔ ∃ a w1, m w = Ok (a, w1) ∧ f a w1 = Ok (b, w').
Proof.
  unfold bind. split.
  - destruct (m w) as [[a w1]| |]; [eauto | discriminate..].
  - intros (a & w1 & -> & H). exact H.
Qed.

Lemma pure_Ok {A} (r : result A) w a w' :
  pure r w = Ok (a, w') ↔ r = Ok a ∧ w' = w.
Proof.
  unfold pure. split.
  - destruct r; [intros [= -> ->]; auto | discriminate..].
  - intros [-> ->]. reflexivity.
Qed.

Lemma ret_Ok {A} (x : A) w a w' : ret x w = Ok (a, w') ↔ a = x ∧ w' = w.
Proof. unfold ret. split; [intros [= -> ->]; auto | intros [-> ->]; auto]. Qed.

Lemma result_bind_Ok {A B} (r : result A) (f : A → result B) b :
  result_bind r f = Ok b ↔ ∃ a, r = Ok a ∧ f a = Ok b.
Proof.
  split.
  - destruct r; simpl; [eauto | discriminate..].
  - intros (a & -> & H). exact H.
Qed.

Lemma bind_eq {A B} (m : M A) (f : A → M B) w a w1 :
  m w = Ok (a, w1) → bind m f w = f a w1.
Proof. unfold bind. by intros ->. Qed.

Lemma bind_pure {A B} (r : result A) (f : A → M B) w a :
  r = Ok a → bind (pure r) f w = f a w.
Proof. by intros ->. Qed.

(** Take a successful run apart, one statement at a time. *)
Ltac run_inv :=
  repeat match goal with
    | H : bind _ _ _ = Ok _ |- _ =>
        let a := fresh "a" in let w := fresh "w" in let Ha := fresh "Ha" in
        apply bind_Ok in H as (a & w & Ha & H)
    | H : pure _ _ = Ok _ |- _ => apply pure_Ok in H as [H ->]
    | H : ret _ _ = Ok _ |- _ => apply ret_Ok in H as [-> ->]
    | H : result_bind _ _ = Ok _ |- _ =>
        let a := fresh "a" in let Ha := fresh "Ha" in
        apply result_bind_Ok in H as (a & Ha & H)
    end.

Section Properties.
Context (rt : Runtime).

Lemma formatted_data_lists r attributes data :
  formatted_data rt r attributes = Ok data →
  keyVisuals data = [] ∧ coverImages data = [].
Proof.
  unfold formatted_data. intros H. run_inv. injection H as <-. auto.
Qed.

(** What a successful [formatted_data] has looked up. *)
Lemma formatted_data_Ok r attributes data :
  formatted_data rt r attributes = Ok data →
  ∃ i count start_date mappings mal,
    subscript r "id" = Ok i
    ∧ id data = i ∧ seriesID data = i ∧ idKitsu data = i
    ∧ py_get attributes "episodeCount" VNone = Ok count
    ∧ episodeCount data
      = match count with VNone => VStr "None" | _ => count end
    ∧ py_get attributes "startDate" VNone = Ok start_date
    ∧ format_date start_date = Ok (dateStart data)
    ∧ py_get attributes "mappings" (VDict []) = Ok mappings
    ∧ py_get mappings "myanimelist/anime" (VStr "") = Ok mal
    ∧ idMAL data = str rt mal.
Proof.
  unfold formatted_data. intros H. run_inv. injection H as <-. simpl.
  exists a0, a, a6, a10, a11.
  repeat split; try assumption; congruence.
Qed.

(** A successful [extract_anime_data], statement by statement. *)
Lemma extract_anime_data_Ok r folder w out w' :
  extract_anime_data rt r folder w = Ok (out, w') →
  ∃ attributes data poster cover w1,
    subscript r "attributes" = Ok attributes
    ∧ formatted_data rt r attributes = Ok data
    ∧ py_get attributes "posterImage" VNone = Ok poster
    ∧ collect_images rt "poster_" (or_empty poster) folder poster_sizes [] w
      = Ok (keyVisuals out, w1)
    ∧ py_get attributes "coverImage" VNone = Ok cover
    ∧ collect_images rt "cover_" (or_empty cover) folder cover_sizes [] w1
      = Ok (coverImages out, w')
    ∧ id out = id data ∧ seriesID out = seriesID data
    ∧ idKitsu out = idKitsu data ∧ episodeCount out = episodeCount data
    ∧ dateStart out = dateStart data ∧ idMAL out = idMAL data.
Proof.
  unfold extract_anime_data. intros H. run_inv.
  destruct (formatted_data_lists _ _ _ Ha0) as [Hk Hc].
  rewrite Hk in Ha2. rewrite Hc in Ha4.
  exists a, a0, a1, a3, w3. simpl. repeat split; assumption.
Qed.

Lemma extract_anime_data_fields r folder w out w' :
  extract_anime_data rt r folder w = Ok (out, w') →
  ∃ attributes data,
    subscript r "attributes" = Ok attributes
    ∧ formatted_data rt r attributes = Ok data
    ∧ id out = id data ∧ seriesID out = seriesID data
    ∧ idKitsu out = idKitsu data ∧ episodeCount out = episodeCount data
    ∧ dateStart out = dateStart data ∧ idMAL out = idMAL data.
Proof.
  intros H. apply extract_anime_data_Ok in H
    as (attributes & data & ? & ? & ? & ? & ? & _ & _ & _ & _ & H).
  exists attributes, data. auto.
Qed.

(** C6: the record's id, seriesID and idKitsu are all the raw record's
    top-level identifier. *)
Theorem ids_are_the_source_id r folder w out w' :
  extract_anime_data rt r folder w = Ok (out, w') →
  ∃ i, subscript r "id" = Ok i
       ∧ id out = i ∧ seriesID out = i ∧ idKitsu out = i.
Proof.
  intros H.
  apply extract_anime_data_fields in H
    as (attributes & data & _ & H & -> & -> & -> & _).
  apply formatted_data_Ok in H as (i & ? & ? & ? & ? & Hi & ? & ? & ? & _).
  exists i. auto.
Qed.

(** C3: when the attributes have no episodeCount, or a null one, the
    record's episodeCount is the string "None" (so neither null nor the
    number 0); any other value is passed through as it is. *)
Theorem episode_count_sentinel r folder w out w' attrs :
  extract_anime_data rt r folder w = Ok (out, w') →
  subscript r "attributes" = Ok (VDict attrs) →
  ((assoc "episodeCount" attrs = None
    ∨ assoc "episodeCount" attrs = Some VNone) →
   episodeCount out = VStr "None"
   ∧ episodeCount out ≠ VNone ∧ episodeCount out ≠ VInt 0)
  ∧ (∀ n, assoc "episodeCount" attrs = Some n → n ≠ VNone →
          episodeCount out = n).
Proof.
  intros H Hattrs.
  apply extract_anime_data_fields in H
    as (attributes & data & Ha & H & _ & _ & _ & -> & _).
  rewrite Hattrs in Ha. injection Ha as <-.
  apply formatted_data_Ok in H
    as (? & count & ? & ? & ? & _ & _ & _ & _ & Hc & -> & _).
  simpl in Hc. injection Hc as <-.
  split.
  - intros [-> | ->]; repeat split; discriminate.
  - intros n -> Hn. destruct n; congruence.
Qed.

(** C10: a "myanimelist/anime" entry that is null gives the idMAL "None",
    as any entry gives its own [str]; the idMAL is the empty default only
    when the mappings have no such entry. *)
Theorem id_mal_of_null r folder w out w' attrs mappings :
  extract_anime_data rt r folder w = Ok (out, w') →
  subscript r "attributes" = Ok (VDict attrs) →
  py_get (VDict attrs) "mappings" (VDict []) = Ok (VDict mappings) →
  (assoc "myanimelist/anime" mappings = Some VNone →
   idMAL out = "None" ∧ String.length (idMAL out) = 4%nat ∧ idMAL out ≠ "")
  ∧ (∀ v, assoc "myanimelist/anime" mappings = Some v →
          idMAL out = str rt v)
  ∧ (assoc "myanimelist/anime" mappings = None → idMAL out = "").
Proof.
  intros H Hattrs Hmap.
  apply extract_anime_data_fields in H
    as (attributes & data & Ha & H & _ & _ & _ & _ & _ & ->).
  rewrite Hattrs in Ha. injection Ha as <-.
  apply formatted_data_Ok in H
    as (? & ? & ? & m & mal & _ & _ & _ & _ & _ & _ & _ & _ & Hm & Hmal & ->).
  rewrite Hmap in Hm. injection Hm as <-.
  simpl in Hmal. injection Hmal as <-.
  split; [| split].
  - intros ->. repeat split. discriminate.
  - intros v ->. reflexivity.
  - intros ->. reflexivity.
Qed.

(** The world after one reading of the clock. *)
Lemma datetime_now_run w :
  datetime_now rt w
  = Ok (clock rt (ticks w),
        {| ticks := S (ticks w); sent := sent w; dirs := dirs w;
           files := files w; stdout := stdout w |}).
Proof. reflexivity. Qed.

Lemma first_of_quarter y q :
  1 ≤ y ≤ 9999 → q = 1 ∨ q = 4 ∨ q = 7 ∨ q = 10 →
  mk_datetime y q 1 0 0 0 0 = Ok (DateTime y q 1 0 0 0 0).
Proof.
  intros Hy Hq. unfold mk_datetime, valid_date.
  replace (1 <=? y) with true by (symmetry; apply Z.leb_le; lia).
  replace (y <=? 9999) with true by (symmetry; apply Z.leb_le; lia).
  destruct Hq as [-> | [-> | [-> | ->]]]; reflexivity.
Qed.

(** C4: in every month from 1 to 12 the season is one of the four labels
    (1-3 Winter, 4-6 Spring, 7-9 Summer, 10-12 Fall) and the start date is
    the first day of that quarter (month 1, 4, 7 or 10) of the current
    year. *)
Theorem season_of_every_month w :
  1 ≤ month (clock rt (ticks w)) ≤ 12 →
  1 ≤ year (clock rt (ticks w)) ≤ 9999 →
  ∃ label first_month w',
    get_current_season rt w = Ok (label, w')
    ∧ get_season_start_date rt w
      = Ok (DateTime (year (clock rt (ticks w))) first_month 1 0 0 0 0, w')
    ∧ ((1 ≤ month (clock rt (ticks w)) ≤ 3
        ∧ label = "Winter" ∧ first_month = 1)
       ∨ (4 ≤ month (clock rt (ticks w)) ≤ 6
          ∧ label = "Spring" ∧ first_month = 4)
       ∨ (7 ≤ month (clock rt (ticks w)) ≤ 9
          ∧ label = "Summer" ∧ first_month = 7)
       ∨ (10 ≤ month (clock rt (ticks w)) ≤ 12
          ∧ label = "Fall" ∧ first_month = 10)).
Proof.
  intros Hm Hy.
  unfold get_current_season, get_season_start_date, bind.
  rewrite datetime_now_run.
  set (now := clock rt (ticks w)) in *.
  assert (month now = 1 ∨ month now = 2 ∨ month now = 3 ∨ month now = 4
          ∨ month now = 5 ∨ month now = 6 ∨ month now = 7 ∨ month now = 8
          ∨ month now = 9 ∨ month now = 10 ∨ month now = 11
          ∨ month now = 12) as Hor by lia.
  destruct Hor as [E|[E|[E|[E|[E|[E|[E|[E|[E|[E|[E|E]]]]]]]]]]];
    rewrite E; cbn -[mk_datetime]; unfold pure;
    rewrite first_of_quarter by (assumption || auto);
    eexists _, _, _; (split; [reflexivity |]); (split; [reflexivity |]);
    solve [ left; repeat split; (reflexivity || lia)
          | right; left; repeat split; (reflexivity || lia)
          | right; right; left; repeat split; (reflexivity || lia)
          | right; right; right; repeat split; (reflexivity || lia) ].
Qed.

(** ** Dates *)

Lemma digit_char_spec k :
  0 ≤ k ≤ 9 →
  digit (digit_char k) = Some k
  ∧ Ascii.eqb (digit_char k) "Z" = false
  ∧ Ascii.eqb (digit_char k) "+" = false
  ∧ Ascii.eqb (digit_char k) "-" = false.
Proof.
  intros Hk.
  assert (k = 0 ∨ k = 1 ∨ k = 2 ∨ k = 3 ∨ k = 4 ∨ k = 5 ∨ k = 6 ∨ k = 7
          ∨ k = 8 ∨ k = 9) as Hor by lia.
  repeat (destruct Hor as [-> | Hor]; [vm_compute; auto |]).
  rewrite Hor. vm_compute. auto.
Qed.

Lemma pad2_digits n :
  0 ≤ n ≤ 99 → 0 ≤ n / 10 ≤ 9 ∧ 0 ≤ n mod 10 ≤ 9.
Proof. intros Hn. Z.to_euclidean_division_equations. lia. Qed.

Lemma append_cons c (s t : string) : String c s +:+ t = String c (s +:+ t).
Proof. reflexivity. Qed.

Lemma append_nil (t : string) : "" +:+ t = t.
Proof. reflexivity. Qed.

Lemma append_assoc (a b c : string) : (a +:+ b) +:+ c = a +:+ b +:+ c.
Proof.
  induction a as [| x a IH]; [reflexivity |].
  rewrite !append_cons. by rewrite IH.
Qed.

Ltac norm_str := repeat (rewrite append_cons || rewrite append_nil).

Lemma digit_inv c x : digit c = Some x → 0 ≤ x ≤ 9 ∧ digit_char x = c.
Proof.
  destruct c as [[] [] [] [] [] [] [] []]; intros H; vm_compute in H;
    try discriminate H; injection H as <-; (split; [lia | reflexivity]).
Qed.

Lemma two_digits_chars a b rest :
  0 ≤ a ≤ 9 → 0 ≤ b ≤ 9 →
  two_digits (String (digit_char a) (String (digit_char b) rest))
  = Some (10 * a + b, rest).
Proof.
  intros Ha Hb. unfold two_digits.
  destruct (digit_char_spec a Ha) as (-> & _).
  destruct (digit_char_spec b Hb) as (-> & _). reflexivity.
Qed.

Lemma two_digits_pad2 n rest :
  0 ≤ n ≤ 99 → two_digits (pad2 n +:+ rest) = Some (n, rest).
Proof.
  intros Hn. destruct (pad2_digits n Hn) as [Ha Hb].
  unfold pad2. norm_str.
  rewrite two_digits_chars by assumption. do 2 f_equal.
  Z.to_euclidean_division_equations. lia.
Qed.

Lemma two_digits_inv s n rest :
  two_digits s = Some (n, rest) → 0 ≤ n ≤ 99 ∧ s = pad2 n +:+ rest.
Proof.
  destruct s as [| a [| b r]]; try discriminate. unfold two_digits.
  destruct (digit a) as [x |] eqn:Ha; [| discriminate].
  destruct (digit b) as [y |] eqn:Hb; [| discriminate].
  intros [= <- <-].
  apply digit_inv in Ha as [Hx <-]. apply digit_inv in Hb as [Hy <-].
  split; [lia |]. unfold pad2. norm_str.
  replace ((10 * x + y) / 10) with x
    by (Z.to_euclidean_division_equations; lia).
  replace ((10 * x + y) mod 10) with y
    by (Z.to_euclidean_division_equations; lia).
  reflexivity.
Qed.

Lemma parse_isoformat_date_ymd y m d rest :
  0 ≤ y ≤ 9999 → 0 ≤ m ≤ 99 → 0 ≤ d ≤ 99 →
  parse_isoformat_date (ymd y m d +:+ rest) = Some (y, m, d, rest).
Proof.
  intros Hy Hm Hd.
  assert (0 ≤ y / 100 ≤ 99 ∧ 0 ≤ y mod 100 ≤ 99) as [Hc Hyy]
    by (Z.to_euclidean_division_equations; lia).
  destruct (pad2_digits _ Hc) as [Hc1 Hc2].
  unfold ymd, pad4. rewrite !append_assoc.
  unfold pad2 at 1. norm_str.
  unfold parse_isoformat_date.
  rewrite two_digits_chars by assumption.
  rewrite two_digits_pad2 by assumption. norm_str.
  rewrite two_digits_pad2 by assumption. norm_str.
  rewrite two_digits_pad2 by assumption.
  do 4 f_equal. Z.to_euclidean_division_equations. lia.
Qed.

Lemma parse_isoformat_date_inv s y m d rest :
  parse_isoformat_date s = Some (y, m, d, rest) →
  0 ≤ y ≤ 9999 ∧ 0 ≤ m ≤ 99 ∧ 0 ≤ d ≤ 99 ∧ s = ymd y m d +:+ rest.
Proof.
  destruct s as [| y1 [| y2 s1]]; try discriminate.
  unfold parse_isoformat_date.
  destruct (two_digits (String y1 (String y2 ""))) as [[c r0] |] eqn:Hc;
    [| discriminate].
  destruct (two_digits s1) as [[yy [| [] s2]] |] eqn:Hyy; try discriminate.
  destruct b, b0, b1, b2, b3, b4, b5, b6; try discriminate.
  destruct (two_digits s2) as [[m' [| [] s3]] |] eqn:Hm; try discriminate.
  destruct b, b0, b1, b2, b3, b4, b5, b6; try discriminate.
  destruct (two_digits s3) as [[d' rest'] |] eqn:Hd; [| discriminate].
  intros [= <- <- <- <-].
  apply two_digits_inv in Hc as [Hc Ec], Hyy as [Hyy ->],
      Hm as [Hm ->], Hd as [Hd ->].
  unfold pad2 in Ec. repeat (rewrite append_cons in Ec || rewrite append_nil in Ec).
  injection Ec as -> -> <-.
  repeat split; try lia.
  unfold ymd, pad4.
  replace ((100 * c + yy) / 100) with c
    by (Z.to_euclidean_division_equations; lia).
  replace ((100 * c + yy) mod 100) with yy
    by (Z.to_euclidean_division_equations; lia).
  rewrite !append_assoc. reflexivity.
Qed.

Lemma replace_pad2 n new rest :
  0 ≤ n ≤ 99 →
  replace "Z" new (pad2 n +:+ rest) = pad2 n +:+ replace "Z" new rest.
Proof.
  intros Hn. destruct (pad2_digits n Hn) as [Ha Hb].
  destruct (digit_char_spec _ Ha) as (_ & Za & _).
  destruct (digit_char_spec _ Hb) as (_ & Zb & _).
  unfold pad2. norm_str. cbn [replace]. rewrite Za, Zb. reflexivity.
Qed.

Lemma split_at_sign_pad2 n rest :
  0 ≤ n ≤ 99 →
  split_at_sign (pad2 n +:+ rest)
  = (pad2 n +:+ (split_at_sign rest).1, (split_at_sign rest).2).
Proof.
  intros Hn. destruct (pad2_digits n Hn) as [Ha Hb].
  destruct (digit_char_spec _ Ha) as (_ & _ & Pa & Ma).
  destruct (digit_char_spec _ Hb) as (_ & _ & Pb & Mb).
  unfold pad2. norm_str. cbn [split_at_sign].
  rewrite Pa, Ma, Pb, Mb. cbn [orb].
  destruct (split_at_sign rest). reflexivity.
Qed.

(** The text of a time of day followed by the offset of UTC is read back
    as that time. *)
Lemma parse_isoformat_time_utc h mi s :
  0 ≤ h ≤ 99 → 0 ≤ mi ≤ 99 → 0 ≤ s ≤ 99 →
  parse_isoformat_time
    (pad2 h +:+ ":" +:+ pad2 mi +:+ ":" +:+ pad2 s +:+ "+00:00")
  = Some (h, mi, s, 0).
Proof.
  intros Hh Hmi Hs. unfold parse_isoformat_time.
  rewrite split_at_sign_pad2 by assumption. norm_str.
  cbn [split_at_sign Ascii.eqb Bool.eqb orb fst snd].
  rewrite split_at_sign_pad2 by assumption. norm_str.
  cbn [split_at_sign Ascii.eqb Bool.eqb orb fst snd].
  rewrite split_at_sign_pad2 by assumption.
  cbn [split_at_sign Ascii.eqb Bool.eqb orb fst snd].
  unfold parse_hh_mm_ss_ff.
  rewrite two_digits_pad2 by assumption.
  rewrite two_digits_pad2 by assumption.
  rewrite two_digits_pad2 by assumption.
  reflexivity.
Qed.

Lemma replace_iso_z y mo d h mi s :
  0 ≤ y ≤ 9999 → 0 ≤ mo ≤ 99 → 0 ≤ d ≤ 99 →
  0 ≤ h ≤ 99 → 0 ≤ mi ≤ 99 → 0 ≤ s ≤ 99 →
  replace "Z" "+00:00" (iso_z y mo d h mi s)
  = ymd y mo d +:+ "T" +:+ pad2 h +:+ ":" +:+ pad2 mi +:+ ":" +:+ pad2 s
    +:+ "+00:00".
Proof.
  intros Hy Hmo Hd Hh Hmi Hs.
  assert (0 ≤ y / 100 ≤ 99 ∧ 0 ≤ y mod 100 ≤ 99) as [Hc Hyy]
    by (Z.to_euclidean_division_equations; lia).
  unfold iso_z, ymd, pad4. rewrite !append_assoc.
  repeat first [ rewrite replace_pad2 by assumption
               | progress norm_str
               | progress cbn [replace Ascii.eqb Bool.eqb] ].
  reflexivity.
Qed.

Lemma valid_date_bounds y m d :
  valid_date y m d = true → 1 ≤ y ≤ 9999 ∧ 1 ≤ m ≤ 12 ∧ 1 ≤ d ≤ 31.
Proof.
  unfold valid_date, days_in_month. rewrite !andb_true_iff, !Z.leb_le.
  intros (((((? & ?) & ?) & ?) & ?) & Hd).
  repeat split; try assumption.
  destruct (m =? 2); [destruct (is_leap y); lia |].
  destruct ((m =? 4) || (m =? 6) || (m =? 9) || (m =? 11)); lia.
Qed.

Lemma valid_time_bounds h mi s us :
  valid_time h mi s us = true → 0 ≤ h ≤ 23 ∧ 0 ≤ mi ≤ 59 ∧ 0 ≤ s ≤ 59.
Proof.
  unfold valid_time. rewrite !andb_true_iff, !Z.leb_le. lia.
Qed.

Lemma mk_datetime_Ok y m d h mi s us dt :
  mk_datetime y m d h mi s us = Ok dt →
  valid_date y m d = true ∧ dt = DateTime y m d h mi s us.
Proof.
  unfold mk_datetime. destruct (valid_date y m d); [| discriminate].
  destruct (valid_time h mi s us); [| discriminate].
  intros [= <-]. auto.
Qed.

(** What [fromisoformat] accepts starts with the text of the valid date
    it returns. *)
Lemma fromisoformat_Ok s dt :
  fromisoformat s = Ok dt →
  valid_date (year dt) (month dt) (day dt) = true
  ∧ ∃ rest, s = ymd (year dt) (month dt) (day dt) +:+ rest.
Proof.
  unfold fromisoformat.
  destruct (parse_isoformat_date s) as [[[[y m] d] rest] |] eqn:Hs;
    [| discriminate].
  apply parse_isoformat_date_inv in Hs as (_ & _ & _ & ->).
  destruct rest as [| sep t].
  - intros H. apply mk_datetime_Ok in H as [Hv ->]. simpl. eauto.
  - destruct (parse_isoformat_time t) as [[[[hh mm] ss] ff] |];
      [| discriminate].
    intros H. apply mk_datetime_Ok in H as [Hv ->]. simpl. eauto.
Qed.

(** The ten characters of a date's text: digits and hyphens. *)
Lemma ymd_chars y m d :
  0 ≤ y ≤ 9999 → 0 ≤ m ≤ 99 → 0 ≤ d ≤ 99 →
  String.length (ymd y m d) = 10%nat
  ∧ Forall (λ c, Ascii.eqb c "+" = false) (list_ascii_of_string (ymd y m d)).
Proof.
  intros Hy Hm Hd.
  assert (0 ≤ y / 100 ≤ 99 ∧ 0 ≤ y mod 100 ≤ 99) as [Hc Hyy]
    by (Z.to_euclidean_division_equations; lia).
  destruct (pad2_digits _ Hc) as [H1 H2], (pad2_digits _ Hyy) as [H3 H4],
      (pad2_digits _ Hm) as [H5 H6], (pad2_digits _ Hd) as [H7 H8].
  unfold ymd, pad4, pad2. norm_str. split; [reflexivity |].
  cbn [list_ascii_of_string].
  repeat (apply Forall_cons; split;
          [first [reflexivity | by apply digit_char_spec] |]).
  apply Forall_nil_2.
Qed.

(** Replacing every "Z" leaves alone a prefix in which the result shows no
    "+". *)
Lemma replace_keeps_prefix p s rest :
  replace "Z" "+00:00" s = p +:+ rest →
  Forall (λ c, Ascii.eqb c "+" = false) (list_ascii_of_string p) →
  ∃ rest', s = p +:+ rest'.
Proof.
  revert s. induction p as [| c p IH]; intros s Hs Hp.
  - exists s. reflexivity.
  - cbn [list_ascii_of_string] in Hp. apply Forall_cons in Hp as [Hc Hp].
    rewrite append_cons in Hs.
    destruct s as [| c0 s0]; [discriminate |]. cbn [replace] in Hs.
    destruct (Ascii.eqb c0 "Z").
    + rewrite append_cons in Hs. injection Hs as <- _. discriminate.
    + injection Hs as -> Hs. destruct (IH _ Hs Hp) as [rest' ->].
      exists rest'. reflexivity.
Qed.

Lemma substring_prefix (p rest : string) :
  substring 0 (String.length p) (p +:+ rest) = p.
Proof.
  induction p as [| c p IH]; [by destruct rest |].
  rewrite append_cons. cbn [String.length substring]. by rewrite IH.
Qed.

Lemma replace_ymd_app y m d new rest :
  0 ≤ y ≤ 9999 → 0 ≤ m ≤ 99 → 0 ≤ d ≤ 99 →
  replace "Z" new (ymd y m d +:+ rest) = ymd y m d +:+ replace "Z" new rest.
Proof.
  intros Hy Hm Hd.
  assert (0 ≤ y / 100 ≤ 99 ∧ 0 ≤ y mod 100 ≤ 99) as [Hc Hyy]
    by (Z.to_euclidean_division_equations; lia).
  unfold ymd, pad4. rewrite !append_assoc.
  repeat first [ rewrite replace_pad2 by assumption
               | progress norm_str
               | progress cbn [replace Ascii.eqb Bool.eqb] ].
  reflexivity.
Qed.

(** The years 0 to 9999 as [strftime] prints them, one by one. *)
Lemma year_text_table :
  forallb (λ y, String.eqb (year_text y) (year_digits y)) (seqZ 0 10000)
  = true.
Proof. vm_compute. reflexivity. Qed.

Lemma year_text_digits y : 0 ≤ y ≤ 9999 → year_text y = year_digits y.
Proof.
  intros Hy. pose proof year_text_table as H.
  rewrite forallb_forall in H.
  apply String.eqb_eq, H, list_elem_of_In, elem_of_seqZ. lia.
Qed.

(** From the year 1000 on the day is printed as YYYY-MM-DD. *)
Lemma day_text_ymd y mo d : 1000 ≤ y ≤ 9999 → day_text y mo d = ymd y mo d.
Proof.
  intros Hy. unfold day_text, ymd. rewrite year_text_digits by lia.
  unfold year_digits.
  destruct (Z.ltb_spec y 10); [lia |]. destruct (Z.ltb_spec y 100); [lia |].
  destruct (Z.ltb_spec y 1000); [lia |]. reflexivity.
Qed.

(** Before the year 1000 it is shorter than YYYY-MM-DD. *)
Lemma day_text_short y mo d :
  0 ≤ y < 1000 → (String.length (day_text y mo d) < 10)%nat.
Proof.
  intros Hy. unfold day_text. rewrite year_text_digits by lia.
  unfold year_digits, pad2.
  destruct (y <? 10); [norm_str; cbn [String.length]; lia |].
  destruct (y <? 100); [norm_str; cbn [String.length]; lia |].
  destruct (Z.ltb_spec y 1000); [norm_str; cbn [String.length]; lia | lia].
Qed.

(** A text that starts with the ten characters of a date is accepted only
    when the date is valid, and then gives that day, whatever follows. *)
Lemma format_date_of_day y mo d rest v :
  0 ≤ y ≤ 9999 → 0 ≤ mo ≤ 99 → 0 ≤ d ≤ 99 →
  format_date (VStr (ymd y mo d +:+ rest)) = Ok v →
  valid_date y mo d = true ∧ v = VStr (day_text y mo d).
Proof.
  intros Hy Hmo Hd. unfold format_date.
  replace (truthy (VStr (ymd y mo d +:+ rest))) with true
    by (unfold ymd, pad4, pad2; norm_str; reflexivity).
  rewrite replace_ymd_app by assumption. unfold fromisoformat.
  rewrite parse_isoformat_date_ymd by assumption.
  intros H. apply result_bind_Ok in H as (dt & Hdt & [= <-]).
  destruct (replace "Z" "+00:00" rest) as [| sep t].
  - apply mk_datetime_Ok in Hdt as [Hv ->]. auto.
  - destruct (parse_isoformat_time t) as [[[[hh mm] ss] ff] |];
      [| discriminate].
    apply mk_datetime_Ok in Hdt as [Hv ->]. auto.
Qed.

Lemma format_date_Ok x v :
  format_date x = Ok v →
  v = VNone
  ∨ ∃ text y mo d,
      x = VStr text ∧ valid_date y mo d = true
      ∧ v = VStr (day_text y mo d) ∧ ymd y mo d = substring 0 10 text.
Proof.
  unfold format_date. destruct (truthy x); [| intros [= <-]; by left].
  destruct x as [| | | | text | |]; try discriminate.
  intros H. apply result_bind_Ok in H as (dt & Hdt & [= <-]).
  apply fromisoformat_Ok in Hdt as (Hv & rest & Htext).
  destruct (valid_date_bounds _ _ _ Hv) as (Hy & Hm & Hd).
  destruct (ymd_chars (year dt) (month dt) (day dt)) as [Hlen Hplus];
    [lia.. |].
  destruct (replace_keeps_prefix _ _ _ Htext Hplus) as [rest' ->].
  right. exists (ymd (year dt) (month dt) (day dt) +:+ rest'),
    (year dt), (month dt), (day dt).
  repeat split; [assumption |].
  rewrite <- Hlen. by rewrite substring_prefix.
Qed.



(** ** Downloads *)

(** Every outcome of [download_image]: a path exactly when the request
    was answered with status 200 and the file written; [None] when there
    was no address or another status; an exception otherwise. *)
Lemma download_image_cases url folder w :
  match download_image rt url folder w with
  | Ok (Some p, w') =>
      ∃ u resp,
        url = VStr u ∧ u ≠ ""
        ∧ serve rt (sent w) (image_request u) = Some resp
        ∧ status_code resp = 200
        ∧ p = path_join folder (basename (urlparse_path rt u))
        ∧ can_write p w = true
        ∧ w' = after_write p (Binary (content resp))
                 (after_request (image_request u) w)
  | Ok (None, w') =>
      (truthy url = false ∧ w' = w)
      ∨ ∃ u resp,
          url = VStr u ∧ serve rt (sent w) (image_request u) = Some resp
          ∧ status_code resp ≠ 200
          ∧ w' = after_request (image_request u) w
  | Raise e =>
      truthy url = true
      ∧ ((∀ u, url ≠ VStr u)
         ∨ ∃ u, url = VStr u
                ∧ (serve rt (sent w) (image_request u) = None
                   ∨ ∃ resp,
                       serve rt (sent w) (image_request u) = Some resp
                       ∧ status_code resp = 200
                       ∧ can_write
                           (path_join folder (basename (urlparse_path rt u)))
                           w = false))
  | OutOfFuel => False
  end.
Proof.
  unfold download_image.
  destruct (truthy url) eqn:Hurl; cbn [negb]; [| left; auto].
  destruct url as [| | | | u | |];
    try (split; [reflexivity | left; intros u; discriminate]).
  unfold bind, requests_get. fold (image_request u).
  destruct (serve rt (sent w) (image_request u)) as [resp |] eqn:Hserve;
    [| split; [reflexivity | right; exists u; auto]].
  fold (after_request (image_request u) w).
  destruct (status_code resp =? 200) eqn:Hstatus.
  - apply Z.eqb_eq in Hstatus. unfold write_file.
    change (can_write ?p (after_request ?q w)) with (can_write p w).
    destruct (can_write _ w) eqn:Hwrite.
    + exists u, resp. repeat split; try assumption.
      intros ->. discriminate.
    + split; [reflexivity |]. right. exists u.
      split; [reflexivity |]. right. eauto.
  - apply Z.eqb_neq in Hstatus. right. exists u, resp. auto.
Qed.

Lemma download_image_path url folder w p w' :
  download_image rt url folder w = Ok (Some p, w') → String.eqb p "" = false.
Proof.
  intros H. pose proof (download_image_cases url folder w) as C.
  rewrite H in C. destruct C as (u & resp & _ & _ & _ & _ & _ & Hw & _).
  destruct p; [discriminate | reflexivity].
Qed.

(** A true [image.get(size)] is [image[size]]. *)
Lemma get_truthy_subscript image size u :
  py_get image size VNone = Ok u → truthy u = true →
  subscript image size = Ok u.
Proof.
  destruct image; try discriminate. cbn [py_get subscript].
  destruct (assoc size d); intros [= <-]; [reflexivity | discriminate].
Qed.

(** ** The loop over the sizes *)

(** The loop only appends: started on [acc] it adds what it adds started
    on the empty list. *)
Lemma collect_images_acc label image folder sizes acc w :
  collect_images rt label image folder sizes acc w
  = match collect_images rt label image folder sizes [] w with
    | Ok (new, w') => Ok (acc ++ new, w')
    | Raise e => Raise e
    | OutOfFuel => OutOfFuel
    end.
Proof.
  revert acc w. induction sizes as [| size rest IH]; intros acc w.
  - cbn. unfold ret. by rewrite app_nil_r.
  - cbn [collect_images]. unfold bind, pure.
    destruct (py_get image size VNone) as [u | |]; try reflexivity.
    destruct (truthy u); [| apply IH].
    destruct (subscript image size) as [u' | |]; try reflexivity.
    destruct (download_image rt u' folder w) as [[[p |] w1] | |];
      try reflexivity; [| apply IH].
    destruct (negb (String.eqb p "")); [| apply IH].
    destruct (dimension image size "height") as [h | |]; try reflexivity.
    destruct (dimension image size "width") as [wd | |]; try reflexivity.
    rewrite IH. rewrite (IH ([] ++ _)).
    destruct (collect_images rt label image folder rest [] w1)
      as [[new w'] | |]; try reflexivity.
    by rewrite app_nil_l, app_assoc.
Qed.

(** The loop makes one round and goes on with the other sizes. *)
Lemma collect_images_step label image folder size rest acc w out w' :
  collect_images rt label image folder (size :: rest) acc w = Ok (out, w') →
  ∃ od w1,
    round rt label image folder size w od w1
    ∧ collect_images rt label image folder rest (acc ++ option_list od) w1
      = Ok (out, w').
Proof.
  cbn [collect_images]. intros H.
  apply bind_Ok in H as (u & w0 & Hu & H). apply pure_Ok in Hu as [Hu ->].
  destruct (truthy u) eqn:Htrue.
  2:{ exists None, w. rewrite app_nil_r. split; [| exact H].
      exists u. auto. }
  apply bind_Ok in H as (u' & w0 & Hu' & H). apply pure_Ok in Hu' as [Hu' ->].
  rewrite (get_truthy_subscript _ _ _ Hu Htrue) in Hu'. injection Hu' as <-.
  apply bind_Ok in H as ([p |] & w1 & Hdl & H).
  2:{ exists None, w1. rewrite app_nil_r. split; [| exact H].
      exists u. auto. }
  rewrite (download_image_path _ _ _ _ _ Hdl) in H. cbn [negb] in H.
  apply bind_Ok in H as (h & w0 & Hh & H). apply pure_Ok in Hh as [Hh ->].
  apply bind_Ok in H as (wd & w0 & Hwd & H). apply pure_Ok in Hwd as [Hwd ->].
  eexists (Some _), w1. split; [| exact H].
  exists u. cbn. auto 10.
Qed.

(** Conversely a round decides how the loop goes on, whatever the sizes
    that follow. *)
Lemma collect_images_round label image folder size w od w1 rest acc :
  round rt label image folder size w od w1 →
  collect_images rt label image folder (size :: rest) acc w
  = collect_images rt label image folder rest (acc ++ option_list od) w1.
Proof.
  intros (u & Hu & Hod). cbn [collect_images]. unfold bind at 1, pure at 1.
  rewrite Hu. destruct od as [d |].
  - destruct Hod as (Htrue & Hdl & Hname & Hurl & Hh & Hwd).
    rewrite Htrue. unfold bind at 1, pure at 1.
    rewrite (get_truthy_subscript _ _ _ Hu Htrue).
    unfold bind at 1. rewrite Hdl.
    rewrite (download_image_path _ _ _ _ _ Hdl). cbn [negb].
    unfold bind, pure. rewrite Hh, Hwd.
    destruct d; cbn in *. by subst.
  - cbn [option_list]. rewrite app_nil_r.
    destruct Hod as [[-> ->] | [Htrue Hdl]]; [reflexivity |].
    rewrite Htrue. unfold bind at 1, pure at 1.
    rewrite (get_truthy_subscript _ _ _ Hu Htrue).
    unfold bind at 1. by rewrite Hdl.
Qed.

Lemma collect_images_acc_Ok label image folder sizes acc w out w' :
  collect_images rt label image folder sizes acc w = Ok (out, w') ↔
  ∃ new, collect_images rt label image folder sizes [] w = Ok (new, w')
         ∧ out = acc ++ new.
Proof.
  rewrite collect_images_acc.
  destruct (collect_images rt label image folder sizes [] w)
    as [[new w1] | |].
  - split.
    + intros [= <- <-]. eauto.
    + intros (new' & [= <- <-] & ->). reflexivity.
  - split; [discriminate | intros (? & ? & _); discriminate].
  - split; [discriminate | intros (? & ? & _); discriminate].
Qed.

Lemma downloaded_cons label image folder size w od w1 rest s :
  round rt label image folder size w od w1 →
  downloaded rt label image folder (size :: rest) w s ↔
  (od ≠ None ∧ s = size) ∨ downloaded rt label image folder rest w1 s.
Proof.
  intros Hround. split.
  - intros (k & u & acc_k & w_k & p & w_k' & Hk & Hu & Ht & Hrun & Hdl).
    destruct k as [| k].
    + left. injection Hk as <-. apply ret_Ok in Hrun as [-> ->].
      split; [| reflexivity]. intros ->.
      destruct Hround as (u' & Hu' & [[Hf _] | [_ Hnone]]);
        rewrite Hu in Hu'; injection Hu' as <-; congruence.
    + right. cbn [take] in Hrun.
      rewrite (collect_images_round _ _ _ _ _ _ _ _ _ Hround) in Hrun.
      apply collect_images_acc_Ok in Hrun as (new & Hrun & _).
      exists k, u, new, w_k, p, w_k'. auto.
  - intros [[Hod ->] | (k & u & acc_k & w_k & p & w_k' & Hk & Hu & Ht & Hrun & Hdl)].
    + destruct od as [d |]; [| done].
      destruct Hround as (u & Hu & Ht & Hdl & _).
      exists 0%nat, u, [], w, (localPath d), w1. auto.
    + exists (S k), u, (([] ++ option_list od) ++ acc_k), w_k, p, w_k'.
      repeat split; try assumption. cbn [take].
      rewrite (collect_images_round _ _ _ _ _ _ _ _ _ Hround).
      apply collect_images_acc_Ok. eauto.
Qed.

Lemma append_inj (a b c : string) : a +:+ b = a +:+ c → b = c.
Proof.
  induction a as [| x a IH]; [auto |].
  rewrite !append_cons. intros [= H]. auto.
Qed.

(** The descriptors of a loop are those of the sizes whose download
    returned a path. *)
Lemma collect_images_downloaded label image folder sizes w new w' :
  collect_images rt label image folder sizes [] w = Ok (new, w') →
  ∀ size,
    has_descriptor label size new
    ↔ downloaded rt label image folder sizes w size.
Proof.
  revert w new. induction sizes as [| s rest IH]; intros w new H size.
  - apply ret_Ok in H as [-> ->]. split.
    + intros (d & Hd & _). by apply elem_of_nil in Hd.
    + intros (k & ? & ? & ? & ? & ? & Hk & _). by destruct k.
  - apply collect_images_step in H as (od & w1 & Hround & H).
    apply collect_images_acc_Ok in H as (new2 & H & ->).
    rewrite (downloaded_cons _ _ _ _ _ _ _ _ _ Hround).
    rewrite <- (IH _ _ H size). unfold has_descriptor.
    destruct od as [d |]; cbn [option_list app].
    + assert (name d = label +:+ s) as Hname
        by (destruct Hround as (? & _ & _ & _ & ? & _); done).
      split.
      * intros (d' & Hd' & Hn). apply elem_of_cons in Hd' as [-> | Hd'].
        -- left. split; [done |]. rewrite Hname in Hn.
           symmetry. by apply append_inj in Hn.
        -- right. eauto.
      * intros [[_ ->] | (d' & Hd' & Hn)].
        -- exists d. split; [apply elem_of_cons; auto | done].
        -- exists d'. split; [apply elem_of_cons; auto | done].
    + split; [eauto | intros [[? _] | ?]; done].
Qed.

Lemma poster_sizes_NoDup : NoDup poster_sizes.
Proof. compute_done. Qed.

Lemma cover_sizes_NoDup : NoDup cover_sizes.
Proof. compute_done. Qed.

(** A size whose download returned no path has no descriptor. *)
Lemma collect_images_failed label image folder sizes w new w' size :
  NoDup sizes →
  collect_images rt label image folder sizes [] w = Ok (new, w') →
  download_failed rt label image folder sizes w size →
  ¬ has_descriptor label size new.
Proof.
  intros Hnodup H (k & u & acc_k & w_k & w_k' & Hk & Hu & _ & Hrun & Hdl) Hd.
  apply (collect_images_downloaded _ _ _ _ _ _ _ H) in Hd
    as (k' & u' & acc' & w2 & p & w2' & Hk' & Hu' & _ & Hrun' & Hdl').
  assert (k' = k) as -> by (eapply NoDup_lookup; eauto).
  rewrite Hu in Hu'. injection Hu' as <-.
  rewrite Hrun in Hrun'. injection Hrun' as <- <-.
  rewrite Hdl in Hdl'. discriminate.
Qed.


(** Every descriptor of a loop is named after one of its sizes. *)
Lemma collect_images_named label image folder sizes w new w' d :
  collect_images rt label image folder sizes [] w = Ok (new, w') →
  d ∈ new → ∃ size, size ∈ sizes ∧ name d = label +:+ size.
Proof.
  revert w new. induction sizes as [| s rest IH]; intros w new H Hd.
  - apply ret_Ok in H as [-> _]. by apply elem_of_nil in Hd.
  - apply collect_images_step in H as (od & w1 & Hround & H).
    apply collect_images_acc_Ok in H as (new2 & H & ->).
    apply elem_of_app in Hd as [Hd | Hd].
    + destruct od as [d' |]; [| by apply elem_of_nil in Hd].
      apply list_elem_of_singleton in Hd as ->.
      destruct Hround as (? & _ & _ & _ & ? & _).
      exists s. split; [apply elem_of_cons; auto | done].
    + destruct (IH _ _ H Hd) as (size & ? & ?).
      exists size. split; [apply elem_of_cons; auto | done].
Qed.

(** C5: no descriptor of coverImages is named "cover_medium": the covers
    are named after tiny, small, large and original only, whatever the
    coverImage holds, while a poster whose medium download returned a
    path has its "poster_medium". *)
Theorem cover_has_no_medium :
  (∀ r folder w out w',
      extract_anime_data rt r folder w = Ok (out, w') →
      (∀ d, d ∈ coverImages out →
            name d ≠ "cover_medium"
            ∧ (name d = "cover_tiny" ∨ name d = "cover_small"
               ∨ name d = "cover_large" ∨ name d = "cover_original"))
      ∧ ∀ attributes poster,
          subscript r "attributes" = Ok attributes →
          py_get attributes "posterImage" VNone = Ok poster →
          downloaded rt "poster_" (or_empty poster) folder poster_sizes w
            "medium" →
          ∃ d, d ∈ keyVisuals out ∧ name d = "poster_medium")
  ∧ "medium" ∈ poster_sizes ∧ "medium" ∉ cover_sizes.
Proof.
  split; [| split; [set_solver | compute_done]].
  intros r folder w out w' H.
  apply extract_anime_data_Ok in H
    as (attributes & data & poster & cover & w1
        & Ha & _ & Hp & Hkv & Hc & Hcv & _).
  split.
  - intros d Hd.
    destruct (collect_images_named _ _ _ _ _ _ _ _ Hcv Hd)
      as (size & Hsizes & ->).
    repeat (apply elem_of_cons in Hsizes as [-> | Hsizes];
            [split; [discriminate | auto 6] |]).
    by apply elem_of_nil in Hsizes.
  - intros attributes' poster' Ha' Hp'.
    rewrite Ha in Ha'. injection Ha' as <-.
    rewrite Hp in Hp'. injection Hp' as <-.
    apply (collect_images_downloaded _ _ _ _ _ _ _ Hkv).
Qed.

(** ** What a run leaves untouched *)

Lemma only_downloads_refl w : only_downloads w w.
Proof. by repeat split. Qed.

Lemma only_downloads_trans w1 w2 w3 :
  only_downloads w1 w2 → only_downloads w2 w3 → only_downloads w1 w3.
Proof.
  intros (? & ? & ? & H12) (? & ? & ? & H23).
  repeat split; try congruence. auto.
Qed.

Lemma download_image_only url folder w o w' :
  download_image rt url folder w = Ok (o, w') → only_downloads w w'.
Proof.
  intros H. pose proof (download_image_cases url folder w) as C.
  rewrite H in C. destruct o as [p |].
  - destruct C as (u & resp & _ & _ & _ & _ & _ & _ & ->).
    repeat split. cbn. intros p' d Hp'.
    destruct (decide (p = p')) as [<- | Hne].
    + rewrite lookup_insert_eq in Hp'. discriminate.
    + by rewrite lookup_insert_ne in Hp'.
  - destruct C as [[_ ->] | (u & resp & _ & _ & _ & ->)];
      [apply only_downloads_refl | by repeat split].
Qed.

Lemma round_only label image folder size w od w1 :
  round rt label image folder size w od w1 → only_downloads w w1.
Proof.
  intros (u & _ & H). destruct od as [d |].
  - destruct H as (_ & H & _). by eapply download_image_only.
  - destruct H as [[_ ->] | [_ H]];
      [apply only_downloads_refl | by eapply download_image_only].
Qed.

Lemma collect_images_only label image folder sizes acc w out w' :
  collect_images rt label image folder sizes acc w = Ok (out, w') →
  only_downloads w w'.
Proof.
  revert acc w. induction sizes as [| s rest IH]; intros acc w H.
  - apply ret_Ok in H as [_ ->]. apply only_downloads_refl.
  - apply collect_images_step in H as (od & w1 & Hround & H).
    eapply only_downloads_trans; [by eapply round_only | by eapply IH].
Qed.

Lemma extract_anime_data_only r folder w out w' :
  extract_anime_data rt r folder w = Ok (out, w') → only_downloads w w'.
Proof.
  intros H. apply extract_anime_data_Ok in H
    as (? & ? & ? & ? & w1 & _ & _ & _ & Hkv & _ & Hcv & _).
  eapply only_downloads_trans; by eapply collect_images_only.
Qed.

(** ** The same downloads give the same record *)

Lemma can_write_dirs p w v : dirs w = dirs v → can_write p w = can_write p v.
Proof. intros H. unfold can_write, is_dir. by rewrite H. Qed.

Lemma download_image_steady url folder w v o w' :
  steady rt → dirs w = dirs v →
  download_image rt url folder w = Ok (o, w') →
  ∃ v', download_image rt url folder v = Ok (o, v').
Proof.
  intros Hsteady Hdirs. unfold download_image.
  destruct (truthy url); cbn [negb]; [| intros [= <- <-]; by eexists].
  destruct url as [| | | | u | |]; try discriminate.
  unfold bind, requests_get. fold (image_request u).
  specialize (Hsteady (sent w) (sent v) u).
  destruct (serve rt (sent w) (image_request u)) as [resp |];
    [| discriminate].
  destruct (serve rt (sent v) (image_request u)) as [resp' |];
    [| discriminate].
  injection Hsteady as <-.
  destruct (status_code resp =? 200); [| intros [= <- <-]; by eexists].
  unfold write_file.
  fold (after_request (image_request u) w).
  fold (after_request (image_request u) v).
  rewrite (can_write_dirs _ (after_request (image_request u) w)
             (after_request (image_request u) v)) by exact Hdirs.
  destruct (can_write _ (after_request (image_request u) v));
    [| discriminate].
  intros [= <- <-]. by eexists.
Qed.

Lemma round_steady label image folder size w v od w1 :
  steady rt → dirs w = dirs v →
  round rt label image folder size w od w1 →
  ∃ v1, round rt label image folder size v od v1.
Proof.
  intros Hsteady Hdirs (u & Hu & H). destruct od as [d |].
  - destruct H as (Ht & Hdl & Hrest).
    destruct (download_image_steady _ _ _ v _ _ Hsteady Hdirs Hdl) as [v1 Hv].
    exists v1, u. auto.
  - destruct H as [[Hf ->] | [Ht Hdl]].
    + exists v, u. auto.
    + destruct (download_image_steady _ _ _ v _ _ Hsteady Hdirs Hdl)
        as [v1 Hv].
      exists v1, u. auto.
Qed.

Lemma collect_images_steady label image folder sizes acc w v out w' :
  steady rt → dirs w = dirs v →
  collect_images rt label image folder sizes acc w = Ok (out, w') →
  ∃ v', collect_images rt label image folder sizes acc v = Ok (out, v')
        ∧ dirs w' = dirs v'.
Proof.
  intros Hsteady. revert acc w v.
  induction sizes as [| s rest IH]; intros acc w v Hdirs H.
  - apply ret_Ok in H as [-> ->]. by exists v.
  - apply collect_images_step in H as (od & w1 & Hround & H).
    destruct (round_steady _ _ _ _ _ v _ _ Hsteady Hdirs Hround)
      as [v1 Hround'].
    rewrite (collect_images_round _ _ _ _ _ _ _ _ _ Hround').
    apply (IH _ _ v1) in H; [exact H |].
    apply round_only in Hround as (_ & -> & _).
    apply round_only in Hround' as (_ & -> & _). exact Hdirs.
Qed.

(** C8: when every download has the same outcome each time (the server
    gives the request of an image the same status whatever came before),
    [extract_anime_data] returns the same record for the same raw record
    in every world with the same directories; so applying it a second
    time, in the world the first run has left, returns the record
    again. *)
Theorem extract_anime_data_again r folder w out w1 :
  steady rt →
  extract_anime_data rt r folder w = Ok (out, w1) →
  (∀ v, dirs v = dirs w →
        ∃ v', extract_anime_data rt r folder v = Ok (out, v'))
  ∧ ∃ w2, extract_anime_data rt r folder w1 = Ok (out, w2).
Proof.
  intros Hsteady H.
  assert (∀ v, dirs v = dirs w →
               ∃ v', extract_anime_data rt r folder v = Ok (out, v'))
    as Hany.
  { intros v Hdirs. unfold extract_anime_data in *. run_inv.
    destruct (collect_images_steady _ _ _ _ _ _ v _ _ Hsteady
                (eq_sym Hdirs) Ha2) as (v1 & Hv1 & Hdirs1).
    destruct (collect_images_steady _ _ _ _ _ _ v1 _ _ Hsteady
                Hdirs1 Ha4) as (v2 & Hv2 & _).
    exists v2.
    rewrite (bind_pure _ _ _ _ Ha), (bind_pure _ _ _ _ Ha0),
      (bind_pure _ _ _ _ Ha1), (bind_eq _ _ _ _ _ Hv1),
      (bind_pure _ _ _ _ Ha3), (bind_eq _ _ _ _ _ Hv2).
    reflexivity. }
  split; [exact Hany |].
  apply Hany. by apply extract_anime_data_only in H as (_ & ? & _).
Qed.

(** ** Pagination *)

Lemma sent_after_requests qs w :
  sent (after_requests qs w) = reverse qs ++ sent w.
Proof.
  revert w. induction qs as [| q qs IH]; intros w; [reflexivity |].
  cbn [after_requests foldl]. fold (after_requests qs (after_request q w)).
  rewrite IH, reverse_cons. cbn [after_request sent].
  by rewrite <- app_assoc.
Qed.

(** One answered page, as the loop reads it. *)
Lemma fetch_pages_page fuel q items links acc w :
  truthy (req_url q) = true →
  answers rt (sent w) q items links →
  fetch_pages rt (S fuel) (req_url q) (req_params q) acc w
  = fetch_pages rt fuel
      (match assoc "next" links with Some v => v | None => VNone end)
      [] (acc ++ items) (after_request q w).
Proof.
  intros Hurl (resp & data & Hserve & Hbody & Hdata & Hlinks).
  cbn [fetch_pages]. rewrite Hurl.
  unfold bind at 1, requests_get.
  destruct q as [u params]. cbn [req_url req_params] in *.
  rewrite Hserve. fold (after_request {| req_url := u; req_params := params |} w).
  unfold response_json. rewrite Hbody.
  cbv beta iota delta [bind pure]. rewrite Hdata.
  cbv beta iota delta [iterate]. rewrite Hlinks. reflexivity.
Qed.

Lemma fetch_pages_paginates fuel q more last acc w :
  truthy (req_url q) = true →
  paginates rt (sent w) q more last →
  (length more < fuel)%nat →
  fetch_pages rt fuel (req_url q) (req_params q) acc w
  = Ok (acc ++ concat (more.*1) ++ last,
        after_requests (q :: (next_request <$> more.*2)) w).
Proof.
  revert fuel q acc w.
  induction more as [| [items next] more IH]; intros fuel q acc w Hurl Hp Hfuel;
    (destruct fuel as [| fuel]; [cbn in Hfuel; lia |]).
  - destruct Hp as (links & Hans & Hnext).
    rewrite (fetch_pages_page _ _ _ _ _ _ Hurl Hans), Hnext.
    by destruct fuel.
  - destruct Hp as (links & Hans & Hnext & Htrue & Hp).
    rewrite (fetch_pages_page _ _ _ _ _ _ Hurl Hans), Hnext.
    change next with (req_url (next_request next)) at 1.
    change [] with (req_params (next_request next)) at 1.
    rewrite (IH fuel (next_request next)); [| exact Htrue | exact Hp
                                            | cbn in Hfuel; lia].
    cbn [fmap list_fmap fst snd concat]. by rewrite <- !app_assoc.
Qed.

Lemma get_current_season_run w :
  ∃ label,
    get_current_season rt w = Ok (label, after_reading w)
    ∧ (label = "Spring" ↔ 4 ≤ month (clock rt (ticks w)) ≤ 6).
Proof.
  unfold get_current_season. rewrite (bind_eq _ _ _ _ _ (datetime_now_run w)).
  fold (after_reading w). set (m := month (clock rt (ticks w))).
  cbn [existsb].
  destruct (m =? 1) eqn:E1; [| destruct (m =? 2) eqn:E2;
    [| destruct (m =? 3) eqn:E3; [| destruct (m =? 4) eqn:E4;
    [| destruct (m =? 5) eqn:E5; [| destruct (m =? 6) eqn:E6;
    [| destruct (m =? 7) eqn:E7; [| destruct (m =? 8) eqn:E8;
    [| destruct (m =? 9) eqn:E9 ]]]]]]]];
    cbn [orb]; eexists; (split; [reflexivity |]);
    rewrite ?Z.eqb_eq, ?Z.eqb_neq in *;
    (split; [try discriminate; lia | try reflexivity; lia]).
Qed.

Lemma get_season_start_date_Ok w season_start w1 :
  get_season_start_date rt w = Ok (season_start, w1) →
  w1 = after_reading w ∧ year season_start = year (clock rt (ticks w)).
Proof.
  unfold get_season_start_date.
  rewrite (bind_eq _ _ _ _ _ (datetime_now_run w)).
  fold (after_reading w).
  repeat match goal with |- context [if ?b then _ else _] => destruct b end;
    intros H; apply pure_Ok in H as [H ->];
    apply mk_datetime_Ok in H as [_ ->]; auto.
Qed.

Lemma length_concat_sum {A} (ls : list (list A)) :
  length (concat ls) = sum_list_with length ls.
Proof.
  induction ls as [| l ls IH]; [reflexivity |].
  cbn [concat sum_list_with]. by rewrite length_app, IH.
Qed.

(** C2: when the server has N pages, every page but the last with the
    address of the next, [fetch_simulcast_anime] (with fuel for N pages)
    returns the records of the N pages in order and stops there: it has
    sent N requests, the first with the filter, limit and sort parameters
    and each later one to the next-page address with no parameters; the
    length of the result is the sum of the pages' record counts. *)
Theorem fetch_all_pages fuel w season_start w1 current_season w2 more last :
  get_season_start_date rt w = Ok (season_start, w1) →
  get_current_season rt w1 = Ok (current_season, w2) →
  paginates rt (sent w) (first_request (year season_start) current_season)
    more last →
  (length more < fuel)%nat →
  ∃ w',
    fetch_simulcast_anime rt fuel w = Ok (concat (more.*1) ++ last, w')
    ∧ w' = after_requests
             (first_request (year season_start) current_season
              :: (next_request <$> more.*2)) w2
    ∧ sent w'
      = reverse (first_request (year season_start) current_season
                 :: (next_request <$> more.*2)) ++ sent w
    ∧ length (first_request (year season_start) current_season
              :: (next_request <$> more.*2)) = S (length more)
    ∧ (∀ q, q ∈ (next_request <$> more.*2) → req_params q = [])
    ∧ length (concat (more.*1) ++ last)
      = (sum_list_with length (more.*1) + length last)%nat.
Proof.
  intros Hstart Hseason Hpages Hfuel.
  pose proof (get_season_start_date_Ok _ _ _ Hstart) as [-> Hy].
  destruct (get_current_season_run (after_reading w)) as (label & Hrun & _).
  rewrite Hrun in Hseason. injection Hseason as <- <-.
  eexists. split; [| split; [reflexivity |]].
  - unfold fetch_simulcast_anime.
    rewrite (bind_eq _ _ _ _ _ Hstart), (bind_eq _ _ _ _ _ Hrun).
    exact (fetch_pages_paginates fuel
             (first_request (year season_start) label) more last []
             (after_reading (after_reading w)) eq_refl Hpages Hfuel).
  - rewrite sent_after_requests. repeat split.
    + cbn [length]. by rewrite !length_fmap.
    + intros q Hq. apply list_elem_of_fmap in Hq as (next & -> & _).
      reflexivity.
    + by rewrite length_app, length_concat_sum.
Qed.

(** ** The output file *)

Lemma no_document_refl w : no_document w w.
Proof. split; [lia | auto]. Qed.

Lemma no_document_trans w1 w2 w3 :
  no_document w1 w2 → no_document w2 w3 → no_document w1 w3.
Proof. intros [? H12] [? H23]. split; [lia | auto]. Qed.

Lemma only_downloads_no_document w w' :
  only_downloads w w' → no_document w w'.
Proof. intros (Ht & _ & _ & H). split; [lia | exact H]. Qed.

Lemma print_no_document line w u w' :
  print line w = Ok (u, w') → no_document w w'.
Proof. intros [= _ <-]. split; [cbn; lia | auto]. Qed.

Lemma datetime_now_no_document w now w' :
  datetime_now rt w = Ok (now, w') →
  now = clock rt (ticks w) ∧ no_document w w'.
Proof. intros [= <- <-]. repeat split; [cbn; lia | auto]. Qed.

Lemma get_current_season_no_document w label w' :
  get_current_season rt w = Ok (label, w') →
  (4 ≤ month (clock rt (ticks w)) ≤ 6 → label = "Spring")
  ∧ no_document w w'.
Proof.
  destruct (get_current_season_run w) as (label' & -> & Hspring).
  intros [= <- <-]. split; [apply Hspring |]. split; [cbn; lia | auto].
Qed.

Lemma path_exists_no_document p w found w' :
  path_exists p w = Ok (found, w') → no_document w w'.
Proof. intros [= _ <-]. apply no_document_refl. Qed.

Lemma makedirs_no_document p w u w' :
  makedirs p w = Ok (u, w') → no_document w w'.
Proof.
  unfold makedirs.
  repeat match goal with |- context [if ?b then _ else _] => destruct b end;
    try discriminate.
  intros [= _ <-]. split; [cbn; lia | auto].
Qed.

Lemma ensure_dir_no_document (found : bool) p w u w' :
  (if negb found then makedirs p else ret tt) w = Ok (u, w') →
  no_document w w'.
Proof.
  destruct found; cbn [negb].
  - intros H. apply ret_Ok in H as [_ ->]. apply no_document_refl.
  - apply makedirs_no_document.
Qed.

Lemma fetch_pages_no_document fuel url params acc w l w' :
  fetch_pages rt fuel url params acc w = Ok (l, w') → no_document w w'.
Proof.
  revert url params acc w.
  induction fuel as [| fuel IH]; intros url params acc w; cbn [fetch_pages];
    (destruct (truthy url);
     [| intros H; apply ret_Ok in H as [_ ->]; apply no_document_refl]);
    [discriminate |].
  intros H. apply bind_Ok in H as (resp & w1 & Hget & H).
  run_inv. apply IH in H.
  eapply no_document_trans; [| exact H].
  unfold requests_get in Hget.
  destruct (serve rt (sent w) _); [| discriminate].
  injection Hget as _ <-. split; [cbn; lia | auto].
Qed.

Lemma fetch_simulcast_anime_no_document fuel w l w' :
  fetch_simulcast_anime rt fuel w = Ok (l, w') → no_document w w'.
Proof.
  unfold fetch_simulcast_anime. intros H.
  apply bind_Ok in H as (season_start & w1 & H1 & H).
  apply bind_Ok in H as (label & w2 & H2 & H).
  apply get_season_start_date_Ok in H1 as [-> _].
  apply get_current_season_no_document in H2 as [_ H2].
  apply fetch_pages_no_document in H.
  eapply no_document_trans; [| eapply no_document_trans; [exact H2 | exact H]].
  split; [cbn; lia | auto].
Qed.

Lemma mapM_extract_no_document folder l w out w' :
  mapM (λ anime, extract_anime_data rt anime folder) l w = Ok (out, w') →
  no_document w w'.
Proof.
  revert w out. induction l as [| r l IH]; intros w out H; cbn [mapM] in H.
  - apply ret_Ok in H as [_ ->]. apply no_document_refl.
  - apply bind_Ok in H as (b & w1 & H1 & H).
    apply bind_Ok in H as (bs & w2 & H2 & H).
    apply ret_Ok in H as [_ ->].
    eapply no_document_trans; [| by eapply IH].
    by eapply only_downloads_no_document, extract_anime_data_only.
Qed.

(** C9: in a run whose clock readings all fall in spring 2024 (April to
    June), the JSON document is written at the path
    2024/simulcast_spring_2024.json, and that is the only path at which
    the run writes a document. *)
Theorem output_file_of_spring_2024 fuel w w' :
  (∀ n, (ticks w ≤ n)%nat →
        year (clock rt n) = 2024 ∧ 4 ≤ month (clock rt n) ≤ 6) →
  main rt fuel w = Ok (tt, w') →
  ∃ batch,
    files w' !! "2024/simulcast_spring_2024.json" = Some (JsonDoc batch)
    ∧ batch_id batch = "simulcast_spring_2024"
    ∧ ∀ p d, files w' !! p = Some (JsonDoc d) →
             p = "2024/simulcast_spring_2024.json"
             ∨ files w !! p = Some (JsonDoc d).
Proof.
  intros Hclock H. unfold main in H.
  apply bind_Ok in H as (u0 & w0 & S0 & H).
  apply print_no_document in S0 as Q.
  apply bind_Ok in H as (anime_list & w1 & S1 & H).
  apply fetch_simulcast_anime_no_document in S1.
  pose proof (no_document_trans _ _ _ Q S1) as Q1.
  apply bind_Ok in H as (now & w2 & S2 & H).
  apply datetime_now_no_document in S2 as [-> S2].
  pose proof (no_document_trans _ _ _ Q1 S2) as Q2.
  cbv zeta in H.
  apply bind_Ok in H as (found & w3 & S3 & H).
  apply path_exists_no_document in S3.
  pose proof (no_document_trans _ _ _ Q2 S3) as Q3.
  apply bind_Ok in H as (u4 & w4 & S4 & H).
  apply ensure_dir_no_document in S4.
  pose proof (no_document_trans _ _ _ Q3 S4) as Q4.
  apply bind_Ok in H as (formatted & w5 & S5 & H).
  apply mapM_extract_no_document in S5.
  pose proof (no_document_trans _ _ _ Q4 S5) as Q5.
  apply bind_Ok in H as (id_season & w6 & S6 & H).
  apply get_current_season_no_document in S6 as [L6 S6].
  pose proof (no_document_trans _ _ _ Q5 S6) as Q6.
  apply bind_Ok in H as (id_now & w7 & S7 & H).
  apply datetime_now_no_document in S7 as [-> S7].
  pose proof (no_document_trans _ _ _ Q6 S7) as Q7.
  apply bind_Ok in H as (u8 & w8 & S8 & H).
  apply print_no_document in S8.
  pose proof (no_document_trans _ _ _ Q7 S8) as Q8.
  apply bind_Ok in H as (file_season & w9 & S9 & H).
  apply get_current_season_no_document in S9 as [L9 S9].
  pose proof (no_document_trans _ _ _ Q8 S9) as Q9.
  apply bind_Ok in H as (file_now & w10 & S10 & H).
  apply datetime_now_no_document in S10 as [-> S10].
  pose proof (no_document_trans _ _ _ Q9 S10) as Q10.
  unfold save_to_file in H.
  apply bind_Ok in H as (save_now & w11 & S11 & H).
  apply datetime_now_no_document in S11 as [-> S11].
  pose proof (no_document_trans _ _ _ Q10 S11) as Q11.
  cbv zeta in H.
  apply bind_Ok in H as (found' & w12 & S12 & H).
  apply path_exists_no_document in S12.
  pose proof (no_document_trans _ _ _ Q11 S12) as Q12.
  apply bind_Ok in H as (u13 & w13 & S13 & H).
  apply ensure_dir_no_document in S13.
  pose proof (no_document_trans _ _ _ Q12 S13) as Q13.
  apply bind_Ok in H as (u14 & w14 & S14 & H).
  destruct (Hclock (ticks w5)) as [_ M5]; [apply Q5 |].
  destruct (Hclock (ticks w6)) as [Y6 _]; [apply Q6 |].
  destruct (Hclock (ticks w8)) as [_ M8]; [apply Q8 |].
  destruct (Hclock (ticks w9)) as [Y9 _]; [apply Q9 |].
  destruct (Hclock (ticks w10)) as [Y10 _]; [apply Q10 |].
  rewrite (L6 M5), Y6, (L9 M8), Y9, Y10 in S14.
  change (path_join _ _) with "2024/simulcast_spring_2024.json" in S14.
  unfold write_file in S14.
  destruct (can_write _ w13); [| discriminate].
  injection S14 as _ <-. injection H as <-.
  cbn [files].
  eexists. split; [apply lookup_insert_eq |]. split; [reflexivity |].
  intros p d Hp.
  destruct (decide ("2024/simulcast_spring_2024.json" = p)) as [<- | Hne];
    [by left | right].
  rewrite lookup_insert_ne in Hp by exact Hne. by apply Q13.
Qed.

End Properties.

(** * Further properties *)

Section Further.
Context (rt : Runtime).

(** ** The image loop, descriptor by descriptor *)

Lemma round_describes label image folder size w d w1 :
  round rt label image folder size w (Some d) w1 →
  describes rt label image folder size d
  ∧ ∃ c, files w1 !! localPath d = Some (Binary c).
Proof.
  intros (u & Hu & Ht & Hdl & Hname & Hurl & Hh & Hwd).
  pose proof (download_image_cases rt u folder w) as C. rewrite Hdl in C.
  destruct C as (a & resp & -> & _ & _ & _ & Hp & _ & ->).
  split.
  - repeat split; try assumption.
    + rewrite Hurl. by apply get_truthy_subscript.
    + exists a. auto.
  - exists (content resp). cbn. apply lookup_insert_eq.
Qed.

Lemma basename_no_slash p : has_slash (basename p) = false.
Proof.
  induction p as [| c p IH]; [reflexivity |].
  cbn [basename]. fold (has_slash p).
  destruct (has_slash p) eqn:Hp; [exact IH |].
  destruct (Ascii.eqb c "/") eqn:Hc; [exact Hp |].
  unfold has_slash. cbn [list_ascii_of_string existsb].
  fold (has_slash p). rewrite Hp, Ascii.eqb_sym, Hc. reflexivity.
Qed.

Lemma downloads_into_refl folder w : downloads_into folder w w.
Proof. repeat split. by left. Qed.

Lemma downloads_into_trans folder w1 w2 w3 :
  downloads_into folder w1 w2 → downloads_into folder w2 w3 →
  downloads_into folder w1 w3.
Proof.
  intros (? & ? & ? & H12) (? & ? & ? & H23).
  repeat split; try congruence.
  intros p. destruct (H23 p) as [E | ?]; [| by right].
  rewrite E. apply H12.
Qed.

Lemma download_image_into url folder w o w' :
  download_image rt url folder w = Ok (o, w') → downloads_into folder w w'.
Proof.
  intros H. pose proof (download_image_cases rt url folder w) as C.
  rewrite H in C. destruct o as [p |].
  - destruct C as (u & resp & _ & _ & _ & _ & -> & _ & ->).
    repeat split. intros p. cbn [after_write after_request files].
    destruct (decide (path_join folder (basename (urlparse_path rt u)) = p))
      as [<- | Hne].
    + right. exists (content resp), (basename (urlparse_path rt u)).
      rewrite lookup_insert_eq. auto using basename_no_slash.
    + left. by rewrite lookup_insert_ne.
  - destruct C as [[_ ->] | (u & resp & _ & _ & _ & ->)];
      [apply downloads_into_refl | repeat split; by left].
Qed.

Lemma round_into label image folder size w od w1 :
  round rt label image folder size w od w1 → downloads_into folder w w1.
Proof.
  intros (u & _ & H). destruct od as [d |].
  - destruct H as (_ & H & _). by eapply download_image_into.
  - destruct H as [[_ ->] | [_ H]];
      [apply downloads_into_refl | by eapply download_image_into].
Qed.

Lemma collect_images_into label image folder sizes acc w out w' :
  collect_images rt label image folder sizes acc w = Ok (out, w') →
  downloads_into folder w w'.
Proof.
  revert acc w. induction sizes as [| s rest IH]; intros acc w H.
  - apply ret_Ok in H as [_ ->]. apply downloads_into_refl.
  - apply collect_images_step in H as (od & w1 & Hround & H).
    eapply downloads_into_trans; [by eapply round_into | by eapply IH].
Qed.

(** Downloaded bytes stay downloaded bytes, whatever is downloaded next. *)
Lemma downloads_into_keeps folder w w' p c :
  downloads_into folder w w' → files w !! p = Some (Binary c) →
  ∃ c', files w' !! p = Some (Binary c').
Proof.
  intros (_ & _ & _ & H) Hp. destruct (H p) as [E | (c' & ? & E & _)];
    [exists c; congruence | eauto].
Qed.

(** Every descriptor of the loop describes one of the sizes and names a
    file that is there when the loop ends. *)
Lemma collect_images_describes label image folder sizes w new w' d :
  collect_images rt label image folder sizes [] w = Ok (new, w') →
  d ∈ new →
  (∃ size, size ∈ sizes ∧ describes rt label image folder size d)
  ∧ ∃ c, files w' !! localPath d = Some (Binary c).
Proof.
  revert w new. induction sizes as [| s rest IH]; intros w new H Hd.
  - apply ret_Ok in H as [-> _]. by apply elem_of_nil in Hd.
  - apply collect_images_step in H as (od & w1 & Hround & H).
    apply collect_images_acc_Ok in H as (new2 & H & ->).
    apply elem_of_app in Hd as [Hd | Hd].
    + destruct od as [d' |]; [| by apply elem_of_nil in Hd].
      apply list_elem_of_singleton in Hd as ->.
      apply round_describes in Hround as [Hdesc [c Hc]]. split.
      * exists s. split; [apply elem_of_cons; auto | exact Hdesc].
      * eapply downloads_into_keeps; [by eapply collect_images_into | exact Hc].
    + destruct (IH _ _ H Hd) as [(size & ? & ?) Hfile]. split; [| exact Hfile].
      exists size. split; [apply elem_of_cons; auto | assumption].
Qed.

(** The descriptors come in the order of the sizes, at most one for each. *)
Lemma collect_images_sublist label image folder sizes w new w' :
  collect_images rt label image folder sizes [] w = Ok (new, w') →
  (name <$> new) `sublist_of` ((λ size, label +:+ size) <$> sizes).
Proof.
  revert w new. induction sizes as [| s rest IH]; intros w new H.
  - apply ret_Ok in H as [-> _]. constructor.
  - apply collect_images_step in H as (od & w1 & Hround & H).
    apply collect_images_acc_Ok in H as (new2 & H & ->).
    apply IH in H. destruct od as [d |]; cbn; rewrite ?fmap_cons.
    + destruct Hround as (? & _ & _ & _ & -> & _). by constructor.
    + by constructor.
Qed.

Lemma request_for_round label image folder size w od w1 :
  round rt label image folder size w od w1 →
  sent w1 = option_list (request_for image size) ++ sent w.
Proof.
  intros (u & Hu & H). unfold request_for. rewrite Hu.
  assert (∀ o w2, truthy u = true →
                  download_image rt u folder w = Ok (o, w2) →
                  sent w2
                  = option_list
                      match u with
                      | VStr a =>
                          if truthy (VStr a) then Some (image_request a)
                          else None
                      | _ => None
                      end ++ sent w) as Hdl.
  { intros o w2 Ht Hrun.
    pose proof (download_image_cases rt u folder w) as C. rewrite Hrun in C.
    destruct o as [p |].
    - destruct C as (a & resp & -> & _ & _ & _ & _ & _ & ->).
      by rewrite Ht.
    - destruct C as [[Hf _] | (a & resp & -> & _ & _ & ->)]; [congruence |].
      by rewrite Ht. }
  destruct od as [d |].
  - destruct H as (Ht & H & _). by eapply Hdl.
  - destruct H as [[Hf ->] | [Ht H]]; [| by eapply Hdl].
    destruct u; try reflexivity. by rewrite Hf.
Qed.

Lemma collect_images_sent label image folder sizes acc w out w' :
  collect_images rt label image folder sizes acc w = Ok (out, w') →
  sent w' = reverse (requested image sizes) ++ sent w.
Proof.
  revert acc w. induction sizes as [| s rest IH]; intros acc w H.
  - apply ret_Ok in H as [_ ->]. reflexivity.
  - apply collect_images_step in H as (od & w1 & Hround & H).
    apply IH in H. rewrite H, (request_for_round _ _ _ _ _ _ _ Hround).
    unfold requested. cbn [omap list_omap].
    destruct (request_for image s) as [q |]; cbn [option_list app];
      [| reflexivity].
    fold (omap (request_for image) rest).
    by rewrite reverse_cons, <- app_assoc.
Qed.

Lemma or_empty_subscript x k v :
  subscript (or_empty x) k = Ok v → or_empty x = x.
Proof. unfold or_empty. destruct (truthy x); [done | discriminate]. Qed.

(** ** A record and its images *)

(** X1: [extract_anime_data] sends one request for every size whose
    address is true, posters first and then covers, each in the order of
    its sizes, whether the download succeeds or not; an address that two
    sizes share is requested twice. *)
Theorem requests_of_a_record r folder w out w' attributes poster cover :
  extract_anime_data rt r folder w = Ok (out, w') →
  subscript r "attributes" = Ok attributes →
  py_get attributes "posterImage" VNone = Ok poster →
  py_get attributes "coverImage" VNone = Ok cover →
  sent w'
  = reverse (requested (or_empty poster) poster_sizes
             ++ requested (or_empty cover) cover_sizes) ++ sent w.
Proof.
  intros H Ha Hp Hc.
  apply extract_anime_data_Ok in H
    as (attributes' & data & poster' & cover' & w1
        & Ha' & _ & Hp' & Hkv & Hc' & Hcv & _).
  rewrite Ha in Ha'. injection Ha' as <-.
  rewrite Hp in Hp'. injection Hp' as <-.
  rewrite Hc in Hc'. injection Hc' as <-.
  apply collect_images_sent in Hkv, Hcv.
  by rewrite Hcv, Hkv, reverse_app, app_assoc.
Qed.

(** X2: the key visuals come in the order tiny, small, medium, large,
    original and the covers in the order tiny, small, large, original, at
    most one for each size: no name occurs twice, and there are at most
    five key visuals and four covers. *)
Theorem descriptors_in_order r folder w out w' :
  extract_anime_data rt r folder w = Ok (out, w') →
  (name <$> keyVisuals out)
    `sublist_of` ["poster_tiny"; "poster_small"; "poster_medium";
                  "poster_large"; "poster_original"]
  ∧ (name <$> coverImages out)
      `sublist_of` ["cover_tiny"; "cover_small"; "cover_large";
                    "cover_original"]
  ∧ NoDup (name <$> keyVisuals out) ∧ NoDup (name <$> coverImages out)
  ∧ (length (keyVisuals out) ≤ 5)%nat ∧ (length (coverImages out) ≤ 4)%nat.
Proof.
  intros H.
  apply extract_anime_data_Ok in H
    as (? & ? & ? & ? & w1 & _ & _ & _ & Hkv & _ & Hcv & _).
  apply collect_images_sublist in Hkv, Hcv.
  change ((λ size, "poster_" +:+ size) <$> poster_sizes)
    with ["poster_tiny"; "poster_small"; "poster_medium"; "poster_large";
          "poster_original"] in Hkv.
  change ((λ size, "cover_" +:+ size) <$> cover_sizes)
    with ["cover_tiny"; "cover_small"; "cover_large"; "cover_original"]
    in Hcv.
  assert (NoDup ["poster_tiny"; "poster_small"; "poster_medium";
                 "poster_large"; "poster_original"]) as Nkv by compute_done.
  assert (NoDup ["cover_tiny"; "cover_small"; "cover_large";
                 "cover_original"]) as Ncv by compute_done.
  split; [exact Hkv |]. split; [exact Hcv |].
  split; [exact (sublist_NoDup _ _ Nkv Hkv) |].
  split; [exact (sublist_NoDup _ _ Ncv Hcv) |].
  apply sublist_length in Hkv, Hcv. rewrite length_fmap in Hkv, Hcv.
  split; [exact Hkv | exact Hcv].
Qed.

(** X3: every local path of the record names a file of downloaded bytes
    that is there when [extract_anime_data] returns, and that file lies
    directly in the images folder: the path is the folder joined with a
    name without slash. *)
Theorem local_paths_name_files r folder w out w' d :
  extract_anime_data rt r folder w = Ok (out, w') →
  d ∈ keyVisuals out ∨ d ∈ coverImages out →
  ∃ c file_name,
    files w' !! localPath d = Some (Binary c)
    ∧ has_slash file_name = false
    ∧ localPath d = path_join folder file_name.
Proof.
  intros H Hd.
  apply extract_anime_data_Ok in H
    as (? & ? & poster & cover & w1 & _ & _ & _ & Hkv & _ & Hcv & _).
  assert (∃ c, files w' !! localPath d = Some (Binary c)
               ∧ ∃ u, localPath d
                      = path_join folder (basename (urlparse_path rt u)))
    as (c & Hc & u & Hu).
  { destruct Hd as [Hd | Hd].
    - destruct (collect_images_describes _ _ _ _ _ _ _ _ Hkv Hd)
        as [(size & _ & _ & _ & _ & _ & u & _ & Hpath) [c Hc]].
      destruct (downloads_into_keeps folder w1 w' _ _
                  (collect_images_into _ _ _ _ _ _ _ _ Hcv) Hc) as [c' Hc'].
      exists c'. eauto.
    - destruct (collect_images_describes _ _ _ _ _ _ _ _ Hcv Hd)
        as [(size & _ & _ & _ & _ & _ & u & _ & Hpath) [c Hc]].
      exists c. eauto. }
  exists c, (basename (urlparse_path rt u)).
  auto using basename_no_slash.
Qed.

(** X4: a descriptor carries what the image holds for its size: the
    address [image[size]] and the height and width that the image's meta
    data give for the size; when the image has no meta data, both are 0. *)
Theorem descriptors_describe_the_image
    r folder w out w' attributes poster cover :
  extract_anime_data rt r folder w = Ok (out, w') →
  subscript r "attributes" = Ok attributes →
  py_get attributes "posterImage" VNone = Ok poster →
  py_get attributes "coverImage" VNone = Ok cover →
  (∀ d, d ∈ keyVisuals out →
        ∃ size, size ∈ poster_sizes
                ∧ describes rt "poster_" poster folder size d)
  ∧ (∀ d, d ∈ coverImages out →
          ∃ size, size ∈ cover_sizes
                  ∧ describes rt "cover_" cover folder size d)
  ∧ (∀ fields d, poster = VDict fields → assoc "meta" fields = None →
                 d ∈ keyVisuals out → height d = VInt 0 ∧ width d = VInt 0)
  ∧ (∀ fields d, cover = VDict fields → assoc "meta" fields = None →
                 d ∈ coverImages out → height d = VInt 0 ∧ width d = VInt 0).
Proof.
  intros H Ha Hp Hc.
  apply extract_anime_data_Ok in H
    as (attributes' & data & poster' & cover' & w1
        & Ha' & _ & Hp' & Hkv & Hc' & Hcv & _).
  rewrite Ha in Ha'. injection Ha' as <-.
  rewrite Hp in Hp'. injection Hp' as <-.
  rewrite Hc in Hc'. injection Hc' as <-.
  assert (∀ d, d ∈ keyVisuals out →
               ∃ size, size ∈ poster_sizes
                       ∧ describes rt "poster_" poster folder size d)
    as Hposter.
  { intros d Hd.
    destruct (collect_images_describes _ _ _ _ _ _ _ _ Hkv Hd)
      as [(size & Hsize & Hdesc) _].
    exists size. split; [exact Hsize |].
    pose proof Hdesc as (_ & Hsub & _).
    by rewrite (or_empty_subscript _ _ _ Hsub) in Hdesc. }
  assert (∀ d, d ∈ coverImages out →
               ∃ size, size ∈ cover_sizes
                       ∧ describes rt "cover_" cover folder size d)
    as Hcover.
  { intros d Hd.
    destruct (collect_images_describes _ _ _ _ _ _ _ _ Hcv Hd)
      as [(size & Hsize & Hdesc) _].
    exists size. split; [exact Hsize |].
    pose proof Hdesc as (_ & Hsub & _).
    by rewrite (or_empty_subscript _ _ _ Hsub) in Hdesc. }
  split; [exact Hposter |]. split; [exact Hcover |].
  split.
  - intros fields d -> Hmeta Hd.
    destruct (Hposter d Hd) as (size & _ & _ & _ & Hh & Hwd & _).
    unfold dimension in Hh, Hwd. cbn [py_get result_bind] in Hh, Hwd.
    rewrite Hmeta in Hh, Hwd. cbn in Hh, Hwd.
    injection Hh as <-. injection Hwd as <-. auto.
  - intros fields d -> Hmeta Hd.
    destruct (Hcover d Hd) as (size & _ & _ & _ & Hh & Hwd & _).
    unfold dimension in Hh, Hwd. cbn [py_get result_bind] in Hh, Hwd.
    rewrite Hmeta in Hh, Hwd. cbn in Hh, Hwd.
    injection Hh as <-. injection Hwd as <-. auto.
Qed.

(** X5: [extract_anime_data] only downloads into the images folder: it
    reads no clock, makes no directory and prints nothing, and a path
    whose file it has changed holds downloaded bytes and is the folder
    joined with a name without slash; so it writes no JSON document and
    removes no file. *)
Theorem extract_only_downloads r folder w out w' :
  extract_anime_data rt r folder w = Ok (out, w') →
  ticks w' = ticks w ∧ dirs w' = dirs w ∧ stdout w' = stdout w
  ∧ ∀ p, files w' !! p = files w !! p
         ∨ ∃ c file_name,
             files w' !! p = Some (Binary c)
             ∧ has_slash file_name = false
             ∧ p = path_join folder file_name.
Proof.
  intros H.
  apply extract_anime_data_Ok in H
    as (? & ? & ? & ? & w1 & _ & _ & _ & Hkv & _ & Hcv & _).
  exact (downloads_into_trans folder w w1 w'
           (collect_images_into _ _ _ _ _ _ _ _ Hkv)
           (collect_images_into _ _ _ _ _ _ _ _ Hcv)).
Qed.

Lemma collect_images_no_address label image folder sizes acc w :
  (∀ size, size ∈ sizes →
           ∃ u, py_get image size VNone = Ok u ∧ truthy u = false) →
  collect_images rt label image folder sizes acc w = Ok (acc, w).
Proof.
  induction sizes as [| s rest IH]; intros Hno; [reflexivity |].
  destruct (Hno s) as (u & Hu & Hf); [apply elem_of_cons; auto |].
  cbn [collect_images]. rewrite (bind_pure _ _ _ _ Hu), Hf.
  apply IH. intros size Hsize. apply Hno, elem_of_cons. auto.
Qed.

(** X6: a record whose poster and cover have no true address for any size
    (absent, null or empty images among them) is extracted in every world,
    without a request and without a change of the world: the result is the
    dictionary of its fields with both image lists empty. *)
Theorem record_without_images r folder w attributes data poster cover :
  subscript r "attributes" = Ok attributes →
  formatted_data rt r attributes = Ok data →
  py_get attributes "posterImage" VNone = Ok poster →
  py_get attributes "coverImage" VNone = Ok cover →
  (∀ size, size ∈ poster_sizes →
           ∃ u, py_get (or_empty poster) size VNone = Ok u
                ∧ truthy u = false) →
  (∀ size, size ∈ cover_sizes →
           ∃ u, py_get (or_empty cover) size VNone = Ok u
                ∧ truthy u = false) →
  extract_anime_data rt r folder w = Ok (data, w)
  ∧ keyVisuals data = [] ∧ coverImages data = [].
Proof.
  intros Ha Hdata Hp Hc Hposter Hcover.
  destruct (formatted_data_lists rt _ _ _ Hdata) as [Hk Hv].
  split; [| auto].
  unfold extract_anime_data.
  rewrite (bind_pure _ _ _ _ Ha), (bind_pure _ _ _ _ Hdata),
    (bind_pure _ _ _ _ Hp).
  rewrite (bind_eq _ _ _ _ _
             (collect_images_no_address _ _ _ _ _ _ Hposter)).
  rewrite (bind_pure _ _ _ _ Hc).
  rewrite (bind_eq _ _ _ _ _
             (collect_images_no_address _ _ _ _ _ _ Hcover)).
  unfold ret. destruct data. cbn in *. by subst.
Qed.

(** X7: a raw record without "attributes", with attributes that are not an
    object, or without "id" makes [extract_anime_data] raise, in every
    world and whatever the server answers. *)
Theorem record_without_attributes_or_id fields folder w :
  (assoc "attributes" fields = None →
   extract_anime_data rt (VDict fields) folder w = Raise KeyError)
  ∧ (∀ a, assoc "attributes" fields = Some a →
          (∀ attrs, a ≠ VDict attrs) →
          extract_anime_data rt (VDict fields) folder w
          = Raise AttributeError)
  ∧ (∀ attrs, assoc "attributes" fields = Some (VDict attrs) →
              assoc "id" fields = None →
              extract_anime_data rt (VDict fields) folder w
              = Raise KeyError).
Proof.
  unfold extract_anime_data, bind, pure. cbn [subscript].
  split; [| split].
  - by intros ->.
  - intros a -> Ha. unfold formatted_data.
    destruct a; try reflexivity. by destruct (Ha d).
  - intros attrs -> Hid. unfold formatted_data. cbn [py_get result_bind].
    cbn [subscript]. by rewrite Hid.
Qed.

(** ** Dates *)

Ltac norm_text := repeat (rewrite append_cons || rewrite append_nil).

Lemma append_empty (s : string) : s +:+ "" = s.
Proof.
  induction s as [| c s IH]; [reflexivity |]. by rewrite append_cons, IH.
Qed.

Lemma format_date_ymd y m d :
  valid_date y m d = true → 1000 ≤ y →
  format_date (VStr (ymd y m d)) = Ok (VStr (ymd y m d)).
Proof.
  intros Hv Hyear. destruct (valid_date_bounds _ _ _ Hv) as (Hy & Hm & Hd).
  unfold format_date.
  replace (truthy (VStr (ymd y m d))) with true
    by (unfold ymd, pad4, pad2; norm_text; reflexivity).
  rewrite <- (append_empty (ymd y m d)) at 1.
  rewrite replace_ymd_app by lia. unfold fromisoformat.
  rewrite parse_isoformat_date_ymd by lia. cbn [replace].
  unfold mk_datetime. rewrite Hv. cbn -[strftime_ymd].
  change (strftime_ymd (DateTime y m d 0 0 0 0)) with (day_text y m d).
  rewrite day_text_ymd by lia. reflexivity.
Qed.

(** The day of a year before 1000, printed without the leading zeros of
    the year, is not read back: its fifth character is not the hyphen. *)
Lemma format_date_short_year y m d :
  0 ≤ y < 1000 → format_date (VStr (day_text y m d)) = Raise ValueError.
Proof.
  intros Hy. unfold day_text. rewrite year_text_digits by lia.
  unfold year_digits.
  assert (0 ≤ y / 100 ≤ 9 ∧ 0 ≤ y mod 100 ≤ 99) as [Hc Hyy]
    by (Z.to_euclidean_division_equations; lia).
  assert (digit "-" = None) as Hyphen by reflexivity.
  destruct (Z.ltb_spec y 10) as [H1 | H1];
    [| destruct (Z.ltb_spec y 100) as [H2 | H2];
       [| destruct (Z.ltb_spec y 1000) as [H3 | H3]; [| lia]]].
  - destruct (digit_char_spec y) as (Dy & Zy & _); [lia |].
    norm_text. unfold format_date. cbn [truthy String.eqb negb].
    cbn [replace Ascii.eqb Bool.eqb]. rewrite Zy.
    unfold fromisoformat, parse_isoformat_date, two_digits.
    rewrite Dy, Hyphen. reflexivity.
  - destruct (pad2_digits y) as [Ha Hb]; [lia |].
    destruct (digit_char_spec _ Ha) as (Da & Za & _).
    destruct (digit_char_spec _ Hb) as (Db & Zb & _).
    unfold pad2 at 1. norm_text. unfold format_date.
    cbn [truthy String.eqb negb].
    cbn [replace Ascii.eqb Bool.eqb]. rewrite Za, Zb.
    unfold fromisoformat, parse_isoformat_date, two_digits.
    rewrite Da, Db, Hyphen.
    by destruct (replace "Z" "+00:00" _).
  - destruct (pad2_digits (y mod 100)) as [Ha Hb]; [lia |].
    destruct (digit_char_spec _ Hc) as (Dc & Zc & _).
    destruct (digit_char_spec _ Ha) as (Da & Za & _).
    destruct (digit_char_spec _ Hb) as (Db & Zb & _).
    unfold pad2 at 1. norm_text. unfold format_date.
    cbn [truthy String.eqb negb].
    cbn [replace Ascii.eqb Bool.eqb]. rewrite Zc, Za, Zb.
    unfold fromisoformat, parse_isoformat_date, two_digits.
    rewrite Dc, Da, Db, Hyphen. reflexivity.
Qed.



(** ** The fetcher, page by page *)

(** One turn of the [while] loop. *)
Lemma fetch_pages_turn fuel q acc w :
  truthy (req_url q) = true →
  fetch_pages rt (S fuel) (req_url q) (req_params q) acc w
  = match serve rt (sent w) q with
    | None => Raise RequestException
    | Some resp =>
        match read_page resp with
        | Ok (items, next) =>
            fetch_pages rt fuel next [] (acc ++ items) (after_request q w)
        | Raise e => Raise e
        | OutOfFuel => OutOfFuel
        end
    end.
Proof.
  intros Hurl. cbn [fetch_pages]. rewrite Hurl.
  unfold bind at 1, requests_get. destruct q as [u params].
  cbn [req_url req_params].
  destruct (serve rt (sent w) _) as [resp |]; [| reflexivity].
  fold (after_request {| req_url := u; req_params := params |} w).
  unfold read_page, bind, pure.
  destruct (response_json resp) as [data | |]; try reflexivity.
  cbn [result_bind].
  destruct (subscript data "data") as [page | |]; try reflexivity.
  cbn [result_bind].
  destruct (iterate page) as [items | |]; try reflexivity.
  cbn [result_bind].
  destruct (subscript data "links") as [links | |]; try reflexivity.
  cbn [result_bind].
  destruct (py_get links "next" VNone) as [next | |]; reflexivity.
Qed.

Lemma fetch_pages_end fuel url params acc w :
  truthy url = false → fetch_pages rt fuel url params acc w = Ok (acc, w).
Proof. intros H. destruct fuel; cbn [fetch_pages]; by rewrite H. Qed.

Lemma fetch_pages_fetched fuel q acc w l w' :
  truthy (req_url q) = true →
  fetch_pages rt fuel (req_url q) (req_params q) acc w = Ok (l, w') ↔
  ∃ pages,
    (length pages ≤ fuel)%nat
    ∧ fetched rt (sent w) q pages
    ∧ l = acc ++ concat (pages.*1)
    ∧ w' = after_requests (page_requests q pages) w.
Proof.
  revert q acc w. induction fuel as [| fuel IH]; intros q acc w Hurl.
  - cbn [fetch_pages]. rewrite Hurl. split; [discriminate |].
    intros (pages & Hlen & Hf & _). destruct pages; [done | cbn in Hlen; lia].
  - rewrite (fetch_pages_turn _ _ _ _ Hurl).
    destruct (serve rt (sent w) q) as [resp |] eqn:Hserve.
    2:{ split; [discriminate |].
        intros ([| [items next] rest] & _ & Hf & _); [done |].
        destruct Hf as (resp & ? & _). congruence. }
    destruct (read_page resp) as [[items next] | e |] eqn:Hread.
    2,3: split; [discriminate |];
         intros ([| [items next] rest] & _ & Hf & _); [done |];
         destruct Hf as (resp' & ? & ? & _); congruence.
    destruct (truthy next) eqn:Hnext.
    + change next with (req_url (next_request next)) at 1.
      change [] with (req_params (next_request next)) at 1.
      rewrite (IH (next_request next)) by exact Hnext. split.
      * intros (pages & Hlen & Hf & -> & ->).
        exists ((items, next) :: pages). repeat split.
        -- cbn. lia.
        -- exists resp. rewrite Hnext. auto.
        -- rewrite fmap_cons. cbn [fst concat]. by rewrite app_assoc.
      * intros ([| [items' next'] rest] & Hlen & Hf & -> & ->); [done |].
        destruct Hf as (resp' & Hserve' & Hread' & Hrest).
        rewrite Hserve in Hserve'. injection Hserve' as <-.
        rewrite Hread in Hread'. injection Hread' as <- <-.
        rewrite Hnext in Hrest.
        exists rest. repeat split; [cbn in Hlen; lia | exact Hrest |].
        rewrite fmap_cons. cbn [fst concat]. by rewrite app_assoc.
    + rewrite fetch_pages_end by exact Hnext. split.
      * intros [= <- <-]. exists [(items, next)]. repeat split.
        -- cbn. lia.
        -- exists resp. rewrite Hnext. auto.
        -- cbn. by rewrite app_nil_r.
      * intros ([| [items' next'] rest] & Hlen & Hf & -> & ->); [done |].
        destruct Hf as (resp' & Hserve' & Hread' & Hrest).
        rewrite Hserve in Hserve'. injection Hserve' as <-.
        rewrite Hread in Hread'. injection Hread' as <- <-.
        rewrite Hnext in Hrest. subst rest. cbn. by rewrite app_nil_r.
Qed.

Lemma fetch_simulcast_anime_loop fuel w season_start w1 label w2 :
  get_season_start_date rt w = Ok (season_start, w1) →
  get_current_season rt w1 = Ok (label, w2) →
  sent w2 = sent w
  ∧ fetch_simulcast_anime rt fuel w
    = fetch_pages rt fuel
        (req_url (first_request (year season_start) label))
        (req_params (first_request (year season_start) label)) [] w2.
Proof.
  intros Hstart Hseason. split.
  - apply get_season_start_date_Ok in Hstart as [-> _].
    destruct (get_current_season_run rt (after_reading w)) as (? & Hrun & _).
    rewrite Hrun in Hseason. by injection Hseason as _ <-.
  - unfold fetch_simulcast_anime.
    by rewrite (bind_eq _ _ _ _ _ Hstart), (bind_eq _ _ _ _ _ Hseason).
Qed.

(** X10: [fetch_simulcast_anime] returns exactly when the server gives a
    last page within the fuel: the pages are requested one after the other
    as long as "next" is true, the first page whose "next" is absent, null
    or empty ends the loop, and the result is the records of all the pages
    read, in order; nothing else is requested. *)
Theorem fetch_returns_the_pages_read
    fuel w season_start w1 label w2 l w' :
  get_season_start_date rt w = Ok (season_start, w1) →
  get_current_season rt w1 = Ok (label, w2) →
  fetch_simulcast_anime rt fuel w = Ok (l, w') ↔
  ∃ pages,
    (length pages ≤ fuel)%nat
    ∧ fetched rt (sent w) (first_request (year season_start) label) pages
    ∧ l = concat (pages.*1)
    ∧ w' = after_requests
             (page_requests (first_request (year season_start) label) pages)
             w2.
Proof.
  intros Hstart Hseason.
  destruct (fetch_simulcast_anime_loop fuel _ _ _ _ _ Hstart Hseason)
    as [Hsent ->].
  rewrite fetch_pages_fetched by reflexivity. by rewrite Hsent.
Qed.

Lemma fetch_pages_turned fuel q pages acc w :
  truthy (req_url q) = true →
  turned rt (sent w) q pages →
  truthy (req_url (request_after q pages)) = true
  ∧ sent (after_requests (page_requests q pages) w)
    = reverse (page_requests q pages) ++ sent w
  ∧ fetch_pages rt (length pages + fuel) (req_url q) (req_params q) acc w
    = fetch_pages rt fuel
        (req_url (request_after q pages))
        (req_params (request_after q pages))
        (acc ++ concat (pages.*1))
        (after_requests (page_requests q pages) w).
Proof.
  intros Hurl Hturned. split; [| split; [apply sent_after_requests |]].
  - revert q w Hurl Hturned.
    induction pages as [| [items next] rest IH]; intros q w Hurl Hturned;
      [exact Hurl |].
    destruct Hturned as (resp & _ & _ & Hnext & Hrest).
    exact (IH (next_request next) (after_request q w) Hnext Hrest).
  - revert q acc w Hurl Hturned.
    induction pages as [| [items next] rest IH]; intros q acc w Hurl Hturned.
    + cbn. by rewrite app_nil_r.
    + destruct Hturned as (resp & Hserve & Hread & Hnext & Hrest).
      cbn [length Nat.add]. rewrite (fetch_pages_turn _ _ _ _ Hurl).
      rewrite Hserve, Hread.
      change next with (req_url (next_request next)) at 1.
      change [] with (req_params (next_request next)) at 1.
      rewrite (IH (next_request next)) by assumption.
      rewrite fmap_cons. cbn [fst concat]. by rewrite app_assoc.
Qed.

(** X11: when a page cannot be had, after any number of pages read, the
    whole fetch raises and the records read so far are lost: the exception
    of the request, ValueError for a body that is not JSON, KeyError for a
    body without "data" or without "links", AttributeError for links that
    are null. *)
Theorem failing_page_fails_the_fetch
    fuel w season_start w1 label w2 pages e :
  get_season_start_date rt w = Ok (season_start, w1) →
  get_current_season rt w1 = Ok (label, w2) →
  turned rt (sent w) (first_request (year season_start) label) pages →
  (length pages < fuel)%nat →
  (serve rt
     (reverse (page_requests (first_request (year season_start) label) pages)
      ++ sent w)
     (request_after (first_request (year season_start) label) pages) = None
   ∧ e = RequestException)
  ∨ (∃ resp,
        serve rt
          (reverse
             (page_requests (first_request (year season_start) label) pages)
           ++ sent w)
          (request_after (first_request (year season_start) label) pages)
        = Some resp
        ∧ (read_page resp = Raise e
           ∨ (json_body resp = None ∧ e = ValueError)
           ∨ (∃ fields, json_body resp = Some (VDict fields)
                        ∧ assoc "data" fields = None ∧ e = KeyError)
           ∨ (∃ fields items,
                 json_body resp = Some (VDict fields)
                 ∧ assoc "data" fields = Some (VList items)
                 ∧ (assoc "links" fields = None ∧ e = KeyError
                    ∨ assoc "links" fields = Some VNone
                      ∧ e = AttributeError)))) →
  fetch_simulcast_anime rt fuel w = Raise e.
Proof.
  intros Hstart Hseason Hturned Hfuel Hfail.
  destruct (fetch_simulcast_anime_loop fuel _ _ _ _ _ Hstart Hseason)
    as [Hsent ->].
  rewrite <- Hsent in Hturned, Hfail.
  destruct (fetch_pages_turned (fuel - length pages - 1 + 1)
              (first_request (year season_start) label) pages [] w2
              eq_refl Hturned) as (Hurl & Hhistory & Hrun).
  replace (length pages + (fuel - length pages - 1 + 1))%nat with fuel
    in Hrun by lia.
  rewrite Hrun, Nat.add_1_r, (fetch_pages_turn _ _ _ _ Hurl), Hhistory.
  destruct Hfail as [[-> ->] | (resp & -> & Hread)]; [reflexivity |].
  assert (read_page resp = Raise e) as ->; [| reflexivity].
  destruct Hread as [H | [[H ->] | [(fields & H & Hd & ->)
                    | (fields & items & H & Hd & Hl)]]];
    [exact H | unfold read_page, response_json; rewrite H..].
  - reflexivity.
  - cbn [result_bind subscript]. by rewrite Hd.
  - cbn [result_bind subscript]. rewrite Hd. cbn [result_bind iterate].
    by destruct Hl as [[-> ->] | [-> ->]].
Qed.

Lemma get_season_start_date_run w :
  1 ≤ year (clock rt (ticks w)) ≤ 9999 →
  ∃ season_start,
    get_season_start_date rt w = Ok (season_start, after_reading w).
Proof.
  intros Hy. unfold get_season_start_date.
  rewrite (bind_eq _ _ _ _ _ (datetime_now_run rt w)).
  fold (after_reading w).
  repeat match goal with |- context [if ?b then _ else _] => destruct b end;
    unfold pure; rewrite first_of_quarter by (assumption || auto);
    eexists; reflexivity.
Qed.

Lemma fetch_pages_endless fuel q acc w :
  endless rt → truthy (req_url q) = true →
  fetch_pages rt fuel (req_url q) (req_params q) acc w = OutOfFuel.
Proof.
  intros Hendless. revert q acc w.
  induction fuel as [| fuel IH]; intros q acc w Hurl.
  - cbn [fetch_pages]. by rewrite Hurl.
  - rewrite (fetch_pages_turn _ _ _ _ Hurl).
    destruct (Hendless (sent w) q) as (resp & items & next & -> & -> & Hnext).
    exact (IH (next_request next) _ _ Hnext).
Qed.

(** X12: the loop has no bound of its own: on a server that answers every
    request with a page that has a true "next", [fetch_simulcast_anime]
    does not return, whatever the fuel. *)
Theorem fetch_does_not_end_on_an_endless_server w :
  endless rt →
  1 ≤ year (clock rt (ticks w)) ≤ 9999 →
  ∀ fuel, fetch_simulcast_anime rt fuel w = OutOfFuel.
Proof.
  intros Hendless Hy fuel.
  destruct (get_season_start_date_run w Hy) as (season_start & Hstart).
  destruct (get_current_season_run rt (after_reading w))
    as (label & Hseason & _).
  destruct (fetch_simulcast_anime_loop fuel _ _ _ _ _ Hstart Hseason)
    as [_ ->].
  by apply fetch_pages_endless.
Qed.

(** ** The batch and its file *)

Lemma extract_anime_data_into r folder w out w' :
  extract_anime_data rt r folder w = Ok (out, w') → downloads_into folder w w'.
Proof.
  intros H.
  apply extract_anime_data_Ok in H
    as (? & ? & ? & ? & w1 & _ & _ & _ & Hkv & _ & Hcv & _).
  exact (downloads_into_trans folder w w1 w'
           (collect_images_into _ _ _ _ _ _ _ _ Hkv)
           (collect_images_into _ _ _ _ _ _ _ _ Hcv)).
Qed.

Lemma mapM_extract_ids folder l w outs w' :
  mapM (λ anime, extract_anime_data rt anime folder) l w = Ok (outs, w') →
  Forall2 (λ raw out, subscript raw "id" = Ok (id out)) l outs
  ∧ downloads_into folder w w'.
Proof.
  revert w outs. induction l as [| r l IH]; intros w outs H; cbn [mapM] in H.
  - apply ret_Ok in H as [-> ->].
    split; [constructor | apply downloads_into_refl].
  - apply bind_Ok in H as (out & w1 & Hout & H).
    apply bind_Ok in H as (outs' & w2 & Houts & H).
    apply ret_Ok in H as [-> ->].
    destruct (IH _ _ Houts) as [Hids Hinto]. split.
    + constructor; [| exact Hids].
      apply extract_anime_data_Ok in Hout
        as (attributes & data & _ & _ & _ & _ & Hdata & _ & _ & _ & _
            & -> & _).
      apply formatted_data_Ok in Hdata as (i & ? & ? & ? & ? & Hi & -> & _).
      exact Hi.
    + eapply downloads_into_trans; [| exact Hinto].
      by eapply extract_anime_data_into.
Qed.

(** X13: the list comprehension of [main] gives one record for each raw
    record, in the same order and with its identifier; it returns only if
    every raw record has an "id" (and is extracted), and it has then only
    downloaded into the images folder. *)
Theorem batch_keeps_the_records folder l w outs w' :
  mapM (λ anime, extract_anime_data rt anime folder) l w = Ok (outs, w') →
  Forall2 (λ raw out, subscript raw "id" = Ok (id out)) l outs
  ∧ length outs = length l
  ∧ ticks w' = ticks w ∧ dirs w' = dirs w ∧ stdout w' = stdout w
  ∧ ∀ p d, files w' !! p = Some (JsonDoc d) → files w !! p = Some (JsonDoc d).
Proof.
  intros H. destruct (mapM_extract_ids _ _ _ _ _ H) as [Hids Hinto].
  split; [exact Hids |]. split; [symmetry; by eapply Forall2_length |].
  destruct Hinto as (? & ? & ? & Hfiles). repeat split; try assumption.
  intros p d Hp. destruct (Hfiles p) as [E | (c & ? & E & _)]; congruence.
Qed.

Lemma get_current_season_label w :
  get_current_season rt w
  = Ok (season_label (month (clock rt (ticks w))), after_reading w).
Proof.
  unfold get_current_season, season_label.
  rewrite (bind_eq _ _ _ _ _ (datetime_now_run rt w)).
  fold (after_reading w).
  repeat match goal with |- context [if ?b then _ else _] => destruct b end;
    reflexivity.
Qed.

Lemma after_requests_frame qs w :
  ticks (after_requests qs w) = ticks w
  ∧ stdout (after_requests qs w) = stdout w.
Proof.
  revert w. induction qs as [| q qs IH]; intros w; [done |].
  cbn [after_requests foldl]. fold (after_requests qs (after_request q w)).
  destruct (IH (after_request q w)) as [-> ->]. done.
Qed.

Lemma fetch_simulcast_anime_frame fuel w l w' :
  fetch_simulcast_anime rt fuel w = Ok (l, w') →
  ticks w' = S (S (ticks w)) ∧ stdout w' = stdout w.
Proof.
  intros H. pose proof H as H0. unfold fetch_simulcast_anime in H0.
  apply bind_Ok in H0 as (season_start & w1 & Hstart & H0).
  apply bind_Ok in H0 as (label & w2 & Hseason & _).
  destruct (fetch_simulcast_anime_loop fuel _ _ _ _ _ Hstart Hseason)
    as [_ Hloop].
  rewrite Hloop in H.
  apply fetch_pages_fetched in H as (pages & _ & _ & _ & ->);
    [| reflexivity].
  apply get_season_start_date_Ok in Hstart as [-> _].
  rewrite get_current_season_label in Hseason. injection Hseason as _ <-.
  destruct (after_requests_frame
              (page_requests (first_request (year season_start) label) pages)
              (after_reading (after_reading w))) as [-> ->].
  done.
Qed.

Lemma ensure_dir_frame (found : bool) p w u w' :
  (if negb found then makedirs p else ret tt) w = Ok (u, w') →
  ticks w' = ticks w ∧ stdout w' = stdout w.
Proof.
  destruct found; cbn [negb].
  - intros H. by apply ret_Ok in H as [_ ->].
  - unfold makedirs.
    repeat match goal with |- context [if ?b then _ else _] => destruct b end;
      try discriminate.
    by intros [= _ <-].
Qed.

(** X14: a run of [main] that ends has read the clock eight times.  The
    document is written in the folder named after the year of the eighth
    reading, under a name made of the season of the sixth and the year of
    the seventh, while its id is made of the season of the fourth reading
    and the year of the fifth: when the readings agree the path is
    year/simulcast_season_year.json and the name is the id followed by
    .json.  The document's start is its first record or nothing, and three
    lines are printed: the announcement, the number of records and the
    path. *)
Theorem main_writes_the_batch fuel w w' :
  main rt fuel w = Ok (tt, w') →
  ∃ batch,
    let reading n := clock rt (ticks w + n)%nat in
    let path :=
      path_join (str rt (VInt (year (reading 7%nat))))
        ("simulcast_" +:+ lower (season_label (month (reading 5%nat)))
         +:+ "_" +:+ str rt (VInt (year (reading 6%nat))) +:+ ".json") in
    ticks w' = (ticks w + 8)%nat
    ∧ files w' !! path = Some (JsonDoc batch)
    ∧ batch_id batch
      = "simulcast_" +:+ lower (season_label (month (reading 3%nat)))
        +:+ "_" +:+ str rt (VInt (year (reading 4%nat)))
    ∧ start batch = head (anime batch)
    ∧ stdout w'
      = [ "Data saved to " +:+ path;
          "Found " +:+ str rt (VInt (Z.of_nat (length (anime batch))))
          +:+ " anime in the current simulcast season.";
          "Fetching current simulcast season anime..." ] ++ stdout w.
Proof.
  intros H. unfold main in H.
  apply bind_Ok in H as (u0 & w0 & S0 & H). injection S0 as _ <-.
  apply bind_Ok in H as (anime_list & w1 & S1 & H).
  apply fetch_simulcast_anime_frame in S1 as [T1 O1]. cbn in T1, O1.
  apply bind_Ok in H as (now & w2 & S2 & H). injection S2 as <- <-.
  cbv zeta in H.
  apply bind_Ok in H as (found & w3 & S3 & H). injection S3 as _ <-.
  apply bind_Ok in H as (u4 & w4 & S4 & H).
  apply ensure_dir_frame in S4 as [T4 O4]. cbn in T4, O4.
  apply bind_Ok in H as (formatted & w5 & S5 & H).
  apply mapM_extract_ids in S5 as [_ (T5 & _ & O5 & _)].
  apply bind_Ok in H as (id_season & w6 & S6 & H).
  rewrite get_current_season_label in S6. injection S6 as <- <-.
  apply bind_Ok in H as (id_now & w7 & S7 & H). injection S7 as <- <-.
  apply bind_Ok in H as (u8 & w8 & S8 & H). injection S8 as _ <-.
  apply bind_Ok in H as (file_season & w9 & S9 & H).
  rewrite get_current_season_label in S9. injection S9 as <- <-.
  apply bind_Ok in H as (file_now & w10 & S10 & H). injection S10 as <- <-.
  unfold save_to_file in H.
  apply bind_Ok in H as (save_now & w11 & S11 & H). injection S11 as <- <-.
  cbv zeta in H.
  apply bind_Ok in H as (found' & w12 & S12 & H). injection S12 as _ <-.
  apply bind_Ok in H as (u13 & w13 & S13 & H).
  apply ensure_dir_frame in S13 as [T13 O13].
  apply bind_Ok in H as (u14 & w14 & S14 & H).
  unfold write_file in S14. destruct (can_write _ w13); [| discriminate].
  injection S14 as _ <-. injection H as <-.
  cbn [ticks stdout files after_reading] in *.
  replace (S (S (S (S (ticks w5))))) with (ticks w + 7)%nat by lia.
  replace (S (S (S (ticks w5)))) with (ticks w + 6)%nat by lia.
  replace (S (S (ticks w5))) with (ticks w + 5)%nat by lia.
  replace (S (ticks w5)) with (ticks w + 4)%nat by lia.
  replace (ticks w5) with (ticks w + 3)%nat by lia.
  eexists. cbv zeta. split; [lia |].
  split; [apply lookup_insert_eq |]. cbn [batch_id start anime].
  split; [reflexivity |]. split; [reflexivity |].
  by rewrite O13, O5, O4, O1.
Qed.

(** ** Paths of the downloads *)

Lemma has_slash_after (a b : string) : has_slash (a +:+ "/" +:+ b) = true.
Proof.
  induction a as [| c a IH]; [reflexivity |].
  rewrite append_cons. unfold has_slash in *.
  cbn [list_ascii_of_string existsb]. rewrite IH. apply orb_true_r.
Qed.

Lemma basename_join (a b : string) :
  has_slash b = false → basename (a +:+ "/" +:+ b) = b.
Proof.
  intros Hb. induction a as [| c a IH].
  - norm_text. cbn [basename]. fold (has_slash b). by rewrite Hb.
  - rewrite append_cons. cbn [basename].
    fold (has_slash (a +:+ "/" +:+ b)). by rewrite has_slash_after.
Qed.

Lemma names_from_app cur (a b : string) :
  names_from cur (a +:+ "/" +:+ b) = names_from cur a ++ names_from "" b.
Proof.
  revert cur. induction a as [| c a IH]; intros cur; [reflexivity |].
  rewrite append_cons. cbn [names_from].
  destruct (Ascii.eqb c "/"); by rewrite IH.
Qed.

Lemma names_from_no_slash cur p :
  has_slash p = false → names_from cur p = [cur +:+ p].
Proof.
  revert cur. induction p as [| c p IH]; intros cur Hp.
  - by rewrite append_empty.
  - unfold has_slash in Hp. cbn [list_ascii_of_string existsb] in Hp.
    apply orb_false_elim in Hp as [Hc Hp]. cbn [names_from].
    rewrite Ascii.eqb_sym, Hc, (IH _ Hp), append_assoc. by norm_text.
Qed.

Lemma ends_with_slash_inv a :
  ends_with_slash a = true → ∃ a', a = a' +:+ "/".
Proof.
  induction a as [| c a IH]; [discriminate |]. cbn [ends_with_slash].
  destruct a as [| c' a'].
  - intros H. apply Ascii.eqb_eq in H as ->. by exists "".
  - intros H. destruct (IH H) as [a0 E]. exists (String c a0).
    by rewrite append_cons, <- E.
Qed.

Lemma resolve_app ds pl (l1 l2 : list string) :
  resolve ds pl (l1 ++ l2)
  = match resolve ds pl l1 with
    | Some pl' => resolve ds pl' l2
    | None => None
    end.
Proof.
  revert pl. induction l1 as [| n l1 IH]; intros pl; [reflexivity |].
  cbn [resolve app]. destruct (enter ds pl n); [apply IH | reflexivity].
Qed.

Lemma path_join_cases (a b : string) :
  a ≠ "" → has_slash b = false →
  path_join a b = if ends_with_slash a then a +:+ b else a +:+ "/" +:+ b.
Proof.
  intros Ha Hb. unfold path_join.
  destruct (String.eqb_spec a ""); [done |]. cbn [orb].
  destruct b as [| c b]; [reflexivity |].
  unfold has_slash in Hb. cbn [list_ascii_of_string existsb] in Hb.
  apply orb_false_elim in Hb as [Hc _].
  destruct c as [[] [] [] [] [] [] [] []]; try reflexivity. discriminate.
Qed.

Lemma origin_app (a b : string) : a ≠ "" → origin (a +:+ b) = origin a.
Proof.
  destruct a as [| c a]; [done |]. intros _. unfold origin.
  rewrite append_cons. cbn [String.prefix].
  destruct (ascii_dec "/" c); [| reflexivity].
  destruct (a +:+ b); by destruct a.
Qed.

(** A file name joined to a folder: the names of the path are those of the
    folder, a final slash apart, and the file name. *)
Lemma path_join_names folder name :
  folder ≠ "" → has_slash name = false →
  ∃ ns,
    path_names (path_join folder name) = ns ++ [name]
    ∧ (∀ ds pl, resolve ds pl (path_names folder) = resolve ds pl ns)
    ∧ basename (path_join folder name) = name
    ∧ origin (path_join folder name) = origin folder.
Proof.
  intros Hfolder Hname. rewrite (path_join_cases _ _ Hfolder Hname).
  destruct (ends_with_slash folder) eqn:Hend.
  - destruct (ends_with_slash_inv _ Hend) as [a ->].
    exists (path_names a). rewrite append_assoc. unfold path_names.
    rewrite names_from_app, (names_from_no_slash _ _ Hname).
    split; [reflexivity |]. split; [| split].
    + intros ds pl.
      change (a +:+ "/") with (a +:+ "/" +:+ "").
      rewrite names_from_app, resolve_app.
      by destruct (resolve ds pl (names_from "" a)).
    + by apply basename_join.
    + rewrite <- append_assoc. by apply origin_app.
  - exists (path_names folder). unfold path_names.
    rewrite names_from_app, (names_from_no_slash _ _ Hname).
    split; [reflexivity |]. split; [done |]. split.
    + by apply basename_join.
    + by apply origin_app.
Qed.

(** Writing a file of a folder needs the folder. *)
Lemma can_write_join folder name w :
  folder ≠ "" → has_slash name = false →
  can_write (path_join folder name) w
  = file_name name && is_dir folder w
    && negb (is_dir (path_join folder name) w).
Proof.
  intros Hfolder Hname.
  destruct (path_join_names _ _ Hfolder Hname)
    as (ns & Hns & Hres & Hbase & Horigin).
  assert (is_dir folder w
          = match resolve (dirs w) (origin folder) ns with
            | Some _ => true
            | None => false
            end) as ->.
  { unfold is_dir. rewrite Hres.
    by destruct (String.eqb_spec folder ""). }
  unfold can_write. by rewrite Hbase, Hns, removelast_last, Horigin.
Qed.

(** X15: a download answered with status 200 needs its folder. It raises
    OSError when the folder is not a directory, when the path of the
    address ends with a slash or with [.] or [..], so that there is no file
    name, and when the place of the file is a directory. When
    [download_image] returns, it returns the folder joined with the last
    segment of the address's path, the folder is a directory, the segment
    is a file name, and the file holds the content of the response. *)
Theorem download_needs_the_folder u folder w resp :
  u ≠ "" → folder ≠ "" →
  serve rt (sent w) (image_request u) = Some resp →
  status_code resp = 200 →
  let name := basename (urlparse_path rt u) in
  let p := path_join folder name in
  (is_dir folder w = false ∨ name = "" ∨ name = "." ∨ name = ".."
   ∨ is_dir p w = true →
   download_image rt (VStr u) folder w = Raise OSError)
  ∧ (∀ o w',
        download_image rt (VStr u) folder w = Ok (o, w') →
        o = Some p
        ∧ is_dir folder w = true
        ∧ name ≠ "" ∧ name ≠ "." ∧ name ≠ ".."
        ∧ is_dir p w = false
        ∧ files w' !! p = Some (Binary (content resp))).
Proof.
  intros Hu Hfolder Hserve Hstatus name p.
  pose proof (basename_no_slash (urlparse_path rt u)) as Hname.
  fold name in Hname.
  assert (download_image rt (VStr u) folder w
          = if file_name name && is_dir folder w && negb (is_dir p w)
            then Ok (Some p, after_write p (Binary (content resp))
                               (after_request (image_request u) w))
            else Raise OSError) as ->.
  { rewrite <- (can_write_join _ _ _ Hfolder Hname). fold p.
    unfold download_image.
    replace (truthy (VStr u)) with true
      by (cbn; by destruct (String.eqb_spec u "")).
    cbn [negb]. unfold bind at 1, requests_get. fold (image_request u).
    rewrite Hserve. fold (after_request (image_request u) w).
    rewrite Hstatus. cbn [Z.eqb Pos.eqb]. fold name. fold p.
    unfold bind, write_file.
    change (can_write p (after_request (image_request u) w))
      with (can_write p w).
    by destruct (can_write p w). }
  split.
  - intros [-> | [-> | [-> | [-> | ->]]]];
      [by rewrite andb_false_r | reflexivity.. | by rewrite andb_false_r].
  - intros o w'. unfold file_name.
    destruct (String.eqb_spec name ""); [discriminate |].
    destruct (String.eqb_spec name "."); [discriminate |].
    destruct (String.eqb_spec name ".."); [discriminate |].
    destruct (is_dir folder w); [| discriminate].
    destruct (is_dir p w); [discriminate |].
    intros [= <- <-]. repeat split; try assumption.
    apply lookup_insert_eq.
Qed.

End Further.

(** ** The fetcher and the status of its pages *)

Lemma read_page_body resp resp' :
  json_body resp' = json_body resp → read_page resp' = read_page resp.
Proof. unfold read_page, response_json. by intros ->. Qed.

Lemma fetch_pages_same_bodies rt rt' fuel q acc w :
  (∀ h q, json_body <$> serve rt' h q = json_body <$> serve rt h q) →
  fetch_pages rt' fuel (req_url q) (req_params q) acc w
  = fetch_pages rt fuel (req_url q) (req_params q) acc w.
Proof.
  intros Hbodies. revert q acc w.
  induction fuel as [| fuel IH]; intros q acc w; [reflexivity |].
  destruct (truthy (req_url q)) eqn:Hurl;
    [| by rewrite !fetch_pages_end by exact Hurl].
  rewrite !fetch_pages_turn by exact Hurl.
  specialize (Hbodies (sent w) q).
  destruct (serve rt' (sent w) q) as [resp' |],
      (serve rt (sent w) q) as [resp |]; try discriminate; [| reflexivity].
  injection Hbodies as Hbody. rewrite (read_page_body _ _ Hbody).
  destruct (read_page resp) as [[items next] | |]; try reflexivity.
  exact (IH (next_request next) _ _).
Qed.

(** X16: the fetcher never looks at the status of a page: two servers whose
    answers have the same JSON bodies, whatever their statuses, give the
    same outcome; a page answered with an error status and a JSON body is
    read like any other. *)
Theorem fetch_ignores_the_status rt rt' fuel w :
  (∀ n, clock rt' n = clock rt n) →
  (∀ h q, json_body <$> serve rt' h q = json_body <$> serve rt h q) →
  fetch_simulcast_anime rt' fuel w = fetch_simulcast_anime rt fuel w.
Proof.
  intros Hclock Hbodies.
  unfold fetch_simulcast_anime, get_season_start_date, get_current_season,
    bind, datetime_now.
  rewrite Hclock.
  destruct (_ : M datetime) as [[season_start w1] | |]; try reflexivity.
  cbn [ticks]. rewrite Hclock.
  destruct (_ : M string) as [[label w2] | |]; try reflexivity.
  exact (fetch_pages_same_bodies rt rt' fuel
           (first_request (year season_start) label) [] w2 Hbodies).
Qed.


(** * The properties on the sample run *)

Lemma show_a_runs :
  ∃ out w',
    extract_anime_data Demo.rt Demo.show_a "2024/images" Demo.ready
    = Ok (out, w').
Proof. vm_compute. eexists _, _. reflexivity. Defined.

Lemma show_b_runs :
  ∃ out w',
    extract_anime_data Demo.rt Demo.show_b "2024/images" Demo.ready
    = Ok (out, w').
Proof. vm_compute. eexists _, _. reflexivity. Defined.

Lemma ids_are_the_source_id_witness :
  ∃ out w',
    extract_anime_data Demo.rt Demo.show_a "2024/images" Demo.ready
    = Ok (out, w')
    ∧ ∃ i, subscript Demo.show_a "id" = Ok i
           ∧ id out = i ∧ seriesID out = i ∧ idKitsu out = i.
Proof.
  destruct show_a_runs as (out & w' & E). exists out, w'.
  split; [exact E |].
  exact (ids_are_the_source_id Demo.rt Demo.show_a "2024/images" Demo.ready
           out w' E).
Defined.

Lemma episode_count_sentinel_witness :
  ∃ out w',
    extract_anime_data Demo.rt Demo.show_b "2024/images" Demo.ready
    = Ok (out, w')
    ∧ subscript Demo.show_b "attributes" = Ok (VDict Demo.show_b_attributes)
    ∧ assoc "episodeCount" Demo.show_b_attributes = Some VNone
    ∧ episodeCount out = VStr "None".
Proof.
  destruct show_b_runs as (out & w' & E). exists out, w'.
  split; [exact E |]. split; [reflexivity |]. split; [reflexivity |].
  exact (proj1 (proj1 (episode_count_sentinel Demo.rt Demo.show_b
                         "2024/images" Demo.ready out w'
                         Demo.show_b_attributes E eq_refl)
                  (or_intror eq_refl))).
Defined.

Lemma id_mal_of_null_witness :
  ∃ out w',
    extract_anime_data Demo.rt Demo.show_a "2024/images" Demo.ready
    = Ok (out, w')
    ∧ subscript Demo.show_a "attributes" = Ok (VDict Demo.show_a_attributes)
    ∧ py_get (VDict Demo.show_a_attributes) "mappings" (VDict [])
      = Ok (VDict Demo.show_a_mappings)
    ∧ assoc "myanimelist/anime" Demo.show_a_mappings = Some VNone
    ∧ idMAL out = "None".
Proof.
  destruct show_a_runs as (out & w' & E). exists out, w'.
  split; [exact E |]. do 3 (split; [reflexivity |]).
  exact (proj1 (proj1 (id_mal_of_null Demo.rt Demo.show_a "2024/images"
                         Demo.ready out w' Demo.show_a_attributes
                         Demo.show_a_mappings E eq_refl eq_refl)
                  eq_refl)).
Defined.

Lemma season_of_every_month_witness :
  1 ≤ month (clock Demo.rt (ticks Demo.fresh)) ≤ 12
  ∧ 1 ≤ year (clock Demo.rt (ticks Demo.fresh)) ≤ 9999
  ∧ ∃ label first_month w',
      get_current_season Demo.rt Demo.fresh = Ok (label, w')
      ∧ get_season_start_date Demo.rt Demo.fresh
        = Ok (DateTime (year (clock Demo.rt (ticks Demo.fresh)))
                first_month 1 0 0 0 0, w')
      ∧ ((1 ≤ month (clock Demo.rt (ticks Demo.fresh)) ≤ 3
          ∧ label = "Winter" ∧ first_month = 1)
         ∨ (4 ≤ month (clock Demo.rt (ticks Demo.fresh)) ≤ 6
            ∧ label = "Spring" ∧ first_month = 4)
         ∨ (7 ≤ month (clock Demo.rt (ticks Demo.fresh)) ≤ 9
            ∧ label = "Summer" ∧ first_month = 7)
         ∨ (10 ≤ month (clock Demo.rt (ticks Demo.fresh)) ≤ 12
            ∧ label = "Fall" ∧ first_month = 10)).
Proof.
  split; [simpl; lia |]. split; [simpl; lia |].
  apply (season_of_every_month Demo.rt Demo.fresh); simpl; lia.
Defined.



Lemma cover_has_no_medium_witness :
  ∃ out w',
    extract_anime_data Demo.rt Demo.show_a "2024/images" Demo.ready
    = Ok (out, w')
    ∧ assoc "medium" [ ("medium", VStr "http://x/img.jpg") ]
      = Some (VStr "http://x/img.jpg")
    ∧ ∀ d, d ∈ coverImages out →
           name d ≠ "cover_medium"
           ∧ (name d = "cover_tiny" ∨ name d = "cover_small"
              ∨ name d = "cover_large" ∨ name d = "cover_original").
Proof.
  destruct show_a_runs as (out & w' & E). exists out, w'.
  split; [exact E |]. split; [reflexivity |].
  exact (proj1 (proj1 (cover_has_no_medium Demo.rt) Demo.show_a
                  "2024/images" Demo.ready out w' E)).
Defined.

Lemma demo_server_steady : steady Demo.rt.
Proof. intros h h' u. reflexivity. Defined.

Lemma extract_anime_data_again_witness :
  steady Demo.rt
  ∧ ∃ out w1,
      extract_anime_data Demo.rt Demo.show_a "2024/images" Demo.ready
      = Ok (out, w1)
      ∧ ∃ w2,
          extract_anime_data Demo.rt Demo.show_a "2024/images" w1
          = Ok (out, w2).
Proof.
  split; [exact demo_server_steady |].
  destruct show_a_runs as (out & w1 & E). exists out, w1.
  split; [exact E |].
  exact (proj2 (extract_anime_data_again Demo.rt Demo.show_a "2024/images"
                  Demo.ready out w1 demo_server_steady E)).
Defined.

Lemma demo_main_runs : ∃ w', main Demo.rt 5 Demo.fresh = Ok (tt, w').
Proof. vm_compute. eexists. reflexivity. Defined.

Lemma output_file_of_spring_2024_witness :
  (∀ n, (ticks Demo.fresh ≤ n)%nat →
        year (clock Demo.rt n) = 2024 ∧ 4 ≤ month (clock Demo.rt n) ≤ 6)
  ∧ ∃ w',
      main Demo.rt 5 Demo.fresh = Ok (tt, w')
      ∧ ∃ batch,
          files w' !! "2024/simulcast_spring_2024.json" = Some (JsonDoc batch)
          ∧ batch_id batch = "simulcast_spring_2024"
          ∧ ∀ p d, files w' !! p = Some (JsonDoc d) →
                   p = "2024/simulcast_spring_2024.json"
                   ∨ files Demo.fresh !! p = Some (JsonDoc d).
Proof.
  assert (∀ n, (ticks Demo.fresh ≤ n)%nat →
               year (clock Demo.rt n) = 2024
               ∧ 4 ≤ month (clock Demo.rt n) ≤ 6) as Hclock
    by (intros n _; simpl; lia).
  split; [exact Hclock |].
  destruct demo_main_runs as (w' & E). exists w'.
  split; [exact E |].
  exact (output_file_of_spring_2024 Demo.rt 5 Demo.fresh w' Hclock E).
Defined.

Lemma demo_server_paginates :
  paginates Demo.rt (sent Demo.fresh) (first_request 2024 "Spring")
    [ ([Demo.show_a; Demo.show_b], VStr Demo.page_2) ] [Demo.show_c].
Proof.
  exists [ ("next", VStr Demo.page_2) ].
  split; [eexists _, _; repeat split; reflexivity |].
  split; [reflexivity |]. split; [reflexivity |].
  exists []. split; [eexists _, _; repeat split; reflexivity | reflexivity].
Defined.

Lemma fetch_all_pages_witness :
  get_season_start_date Demo.rt Demo.fresh
  = Ok (DateTime 2024 4 1 0 0 0 0, after_reading Demo.fresh)
  ∧ get_current_season Demo.rt (after_reading Demo.fresh)
    = Ok ("Spring", after_reading (after_reading Demo.fresh))
  ∧ (1 < 5)%nat
  ∧ ∃ w',
      fetch_simulcast_anime Demo.rt 5 Demo.fresh
      = Ok ([Demo.show_a; Demo.show_b; Demo.show_c], w')
      ∧ sent w'
        = [ next_request (VStr Demo.page_2); first_request 2024 "Spring" ].
Proof.
  split; [reflexivity |]. split; [reflexivity |]. split; [lia |].
  destruct (fetch_all_pages Demo.rt 5 Demo.fresh
              (DateTime 2024 4 1 0 0 0 0) (after_reading Demo.fresh)
              "Spring" (after_reading (after_reading Demo.fresh))
              [ ([Demo.show_a; Demo.show_b], VStr Demo.page_2) ]
              [Demo.show_c] eq_refl eq_refl demo_server_paginates
              ltac:(simpl; lia))
    as (w' & Hrun & _ & Hsent & _).
  exists w'. split; [exact Hrun | exact Hsent].
Defined.

(** ** The end-to-end scenario

    The record "42" with its poster at http://x/img.jpg: when the download
    succeeds the record has the day of its start date, its episode count and
    one key visual, written under the images folder; on a server that has
    no image at all the key visuals are empty. *)

Example show_a_downloaded :
  outcome (extract_anime_data Demo.rt Demo.show_a "2024/images" Demo.ready)
  = Ok {| id := VStr "42"; seriesID := VStr "42";
          titleEnglish := VStr "Show A"; titleRomaji := VStr "";
          dateStart := VStr "2024-04-01"; episodeCount := VInt 12;
          format := VStr ""; idKitsu := VStr "42"; idMAL := "None";
          season := "Spring";
          keyVisuals :=
            [ {| height := VInt 554; name := "poster_medium";
                 url := VStr "http://x/img.jpg"; width := VInt 390;
                 localPath := "2024/images/img.jpg" |} ];
          coverImages := [] |}.
Proof. vm_compute. reflexivity. Qed.

Example show_a_not_downloaded :
  result_bind
    (outcome (extract_anime_data Demo.rt_without_images Demo.show_a
                "2024/images" Demo.ready))
    (λ out, Ok (keyVisuals out))
  = Ok [].
Proof. vm_compute. reflexivity. Qed.

(** Without its images folder the first successful download raises. *)
Example show_a_without_folder :
  outcome (extract_anime_data Demo.rt Demo.show_a "2024/images" Demo.fresh)
  = Raise OSError.
Proof. vm_compute. reflexivity. Qed.

(** One unit of fuel is not enough for the two pages of the sample server. *)
Example fetch_needs_fuel :
  outcome (fetch_simulcast_anime Demo.rt 1 Demo.fresh) = OutOfFuel.
Proof. vm_compute. reflexivity. Qed.

(** Paths are resolved before they are looked up: [.] is the working
    directory, a final slash and a way up and down again change nothing,
    and [..] is not the name of a file. *)
Example paths_are_resolved :
  is_dir "." Demo.fresh = true
  ∧ can_write "./img.jpg" Demo.fresh = true
  ∧ is_dir "2024/images/../images/" Demo.ready = true
  ∧ can_write "2024/images/img.jpg" Demo.ready = true
  ∧ can_write "2024/images/.." Demo.ready = false
  ∧ can_write "2024/posters/img.jpg" Demo.ready = false.
Proof. vm_compute. repeat split. Qed.

(** * The further properties on the sample run *)

Lemma show_a_result :
  ∃ w',
    extract_anime_data Demo.rt Demo.show_a "2024/images" Demo.ready
    = Ok (Servers.show_a_record, w').
Proof. vm_compute. eexists. reflexivity. Defined.

Lemma requests_of_a_record_witness :
  ∃ out w',
    extract_anime_data Demo.rt Demo.show_a "2024/images" Demo.ready
    = Ok (out, w')
    ∧ subscript Demo.show_a "attributes" = Ok (VDict Demo.show_a_attributes)
    ∧ sent w' = [ image_request "http://x/img.jpg" ].
Proof.
  destruct show_a_runs as (out & w' & E). exists out, w'.
  split; [exact E |]. split; [reflexivity |].
  exact (requests_of_a_record Demo.rt Demo.show_a "2024/images" Demo.ready
           out w' (VDict Demo.show_a_attributes)
           (Demo.image "medium" "http://x/img.jpg")
           (Demo.image "medium" "http://x/img.jpg")
           E eq_refl eq_refl eq_refl).
Defined.

Lemma descriptors_in_order_witness :
  ∃ out w',
    extract_anime_data Demo.rt Demo.show_a "2024/images" Demo.ready
    = Ok (out, w')
    ∧ (name <$> keyVisuals out)
        `sublist_of` ["poster_tiny"; "poster_small"; "poster_medium";
                      "poster_large"; "poster_original"]
    ∧ (length (keyVisuals out) ≤ 5)%nat.
Proof.
  destruct show_a_runs as (out & w' & E). exists out, w'.
  split; [exact E |].
  destruct (descriptors_in_order Demo.rt Demo.show_a "2024/images"
              Demo.ready out w' E) as (Hkv & _ & _ & _ & Hlen & _).
  split; [exact Hkv | exact Hlen].
Defined.

Lemma local_paths_name_files_witness :
  ∃ w',
    extract_anime_data Demo.rt Demo.show_a "2024/images" Demo.ready
    = Ok (Servers.show_a_record, w')
    ∧ ∃ c file_name,
        files w' !! "2024/images/img.jpg" = Some (Binary c)
        ∧ has_slash file_name = false
        ∧ "2024/images/img.jpg" = path_join "2024/images" file_name.
Proof.
  destruct show_a_result as (w' & E). exists w'.
  split; [exact E |].
  apply (local_paths_name_files Demo.rt Demo.show_a "2024/images" Demo.ready
           Servers.show_a_record w' Servers.poster_medium E).
  left. simpl. apply list_elem_of_here.
Defined.

Lemma descriptors_describe_the_image_witness :
  ∃ out w',
    extract_anime_data Demo.rt Demo.show_a "2024/images" Demo.ready
    = Ok (out, w')
    ∧ ∀ d, d ∈ keyVisuals out →
           ∃ size, size ∈ poster_sizes
                   ∧ describes Demo.rt "poster_"
                       (Demo.image "medium" "http://x/img.jpg")
                       "2024/images" size d.
Proof.
  destruct show_a_runs as (out & w' & E). exists out, w'.
  split; [exact E |].
  exact (proj1 (descriptors_describe_the_image Demo.rt Demo.show_a
                  "2024/images" Demo.ready out w'
                  (VDict Demo.show_a_attributes)
                  (Demo.image "medium" "http://x/img.jpg")
                  (Demo.image "medium" "http://x/img.jpg")
                  E eq_refl eq_refl eq_refl)).
Defined.

Lemma extract_only_downloads_witness :
  ∃ out w',
    extract_anime_data Demo.rt Demo.show_a "2024/images" Demo.ready
    = Ok (out, w')
    ∧ ticks w' = ticks Demo.ready ∧ dirs w' = dirs Demo.ready
    ∧ stdout w' = stdout Demo.ready.
Proof.
  destruct show_a_runs as (out & w' & E). exists out, w'.
  split; [exact E |].
  destruct (extract_only_downloads Demo.rt Demo.show_a "2024/images"
              Demo.ready out w' E) as (Ht & Hd & Ho & _).
  auto.
Defined.

Lemma record_without_images_witness :
  ∃ data,
    formatted_data Demo.rt Demo.show_c (VDict []) = Ok data
    ∧ extract_anime_data Demo.rt Demo.show_c "2024/images" Demo.fresh
      = Ok (data, Demo.fresh).
Proof.
  eexists. split; [vm_compute; reflexivity |].
  refine (proj1 (record_without_images Demo.rt Demo.show_c "2024/images"
                   Demo.fresh (VDict []) _ VNone VNone
                   eq_refl eq_refl eq_refl eq_refl _ _)).
  - intros size _. exists VNone. split; reflexivity.
  - intros size _. exists VNone. split; reflexivity.
Defined.

Lemma record_without_attributes_or_id_witness :
  assoc "attributes" [ ("id", VStr "45") ] = None
  ∧ extract_anime_data Demo.rt (VDict [ ("id", VStr "45") ]) "2024/images"
      Demo.ready
    = Raise KeyError.
Proof.
  split; [reflexivity |].
  exact (proj1 (record_without_attributes_or_id Demo.rt
                  [ ("id", VStr "45") ] "2024/images" Demo.ready)
           eq_refl).
Defined.



Lemma demo_fetch_runs :
  ∃ l w', fetch_simulcast_anime Demo.rt 5 Demo.fresh = Ok (l, w').
Proof. vm_compute. eexists _, _. reflexivity. Defined.

Lemma fetch_returns_the_pages_read_witness :
  ∃ l w',
    fetch_simulcast_anime Demo.rt 5 Demo.fresh = Ok (l, w')
    ∧ ∃ pages,
        (length pages ≤ 5)%nat
        ∧ fetched Demo.rt (sent Demo.fresh) (first_request 2024 "Spring")
            pages
        ∧ l = concat (pages.*1)
        ∧ w' = after_requests
                 (page_requests (first_request 2024 "Spring") pages)
                 (after_reading (after_reading Demo.fresh)).
Proof.
  destruct demo_fetch_runs as (l & w' & E). exists l, w'.
  split; [exact E |].
  exact (proj1 (fetch_returns_the_pages_read Demo.rt 5 Demo.fresh
                  (DateTime 2024 4 1 0 0 0 0) (after_reading Demo.fresh)
                  "Spring" (after_reading (after_reading Demo.fresh))
                  l w' eq_refl eq_refl) E).
Defined.

Lemma broken_server_turns :
  turned Servers.broken_rt (sent Demo.fresh) (first_request 2024 "Spring")
    [ ([Demo.show_a; Demo.show_b], VStr Demo.page_2) ].
Proof.
  eexists. split; [reflexivity |]. split; [reflexivity |].
  split; [reflexivity | exact I].
Defined.

Lemma failing_page_fails_the_fetch_witness :
  turned Servers.broken_rt (sent Demo.fresh) (first_request 2024 "Spring")
    [ ([Demo.show_a; Demo.show_b], VStr Demo.page_2) ]
  ∧ fetch_simulcast_anime Servers.broken_rt 5 Demo.fresh = Raise ValueError.
Proof.
  split; [exact broken_server_turns |].
  refine (failing_page_fails_the_fetch Servers.broken_rt 5 Demo.fresh
            (DateTime 2024 4 1 0 0 0 0) (after_reading Demo.fresh)
            "Spring" (after_reading (after_reading Demo.fresh))
            [ ([Demo.show_a; Demo.show_b], VStr Demo.page_2) ] ValueError
            eq_refl eq_refl broken_server_turns ltac:(simpl; lia) _).
  right. eexists. split; [reflexivity |]. right. left.
  split; reflexivity.
Defined.

Lemma endless_server_is_endless : endless Servers.endless_rt.
Proof.
  intros h q. eexists _, _, _.
  split; [reflexivity |]. split; reflexivity.
Defined.

Lemma fetch_does_not_end_on_an_endless_server_witness :
  endless Servers.endless_rt
  ∧ ∀ fuel, fetch_simulcast_anime Servers.endless_rt fuel Demo.fresh
            = OutOfFuel.
Proof.
  split; [exact endless_server_is_endless |].
  exact (fetch_does_not_end_on_an_endless_server Servers.endless_rt
           Demo.fresh endless_server_is_endless ltac:(simpl; lia)).
Defined.

Lemma demo_batch_runs :
  ∃ outs w',
    mapM (λ anime, extract_anime_data Demo.rt anime "2024/images")
      [Demo.show_a; Demo.show_b] Demo.ready
    = Ok (outs, w').
Proof. vm_compute. eexists _, _. reflexivity. Defined.

Lemma batch_keeps_the_records_witness :
  ∃ outs w',
    mapM (λ anime, extract_anime_data Demo.rt anime "2024/images")
      [Demo.show_a; Demo.show_b] Demo.ready
    = Ok (outs, w')
    ∧ Forall2 (λ raw out, subscript raw "id" = Ok (id out))
        [Demo.show_a; Demo.show_b] outs
    ∧ length outs = 2%nat.
Proof.
  destruct demo_batch_runs as (outs & w' & E). exists outs, w'.
  split; [exact E |].
  destruct (batch_keeps_the_records Demo.rt "2024/images"
              [Demo.show_a; Demo.show_b] Demo.ready outs w' E)
    as (Hids & Hlen & _).
  split; [exact Hids | exact Hlen].
Defined.

Lemma main_writes_the_batch_witness :
  ∃ w',
    main Demo.rt 5 Demo.fresh = Ok (tt, w')
    ∧ ∃ batch,
        ticks w' = 8%nat
        ∧ files w' !! "2024/simulcast_spring_2024.json"
          = Some (JsonDoc batch)
        ∧ batch_id batch = "simulcast_spring_2024"
        ∧ start batch = head (anime batch).
Proof.
  destruct demo_main_runs as (w' & E). exists w'.
  split; [exact E |].
  destruct (main_writes_the_batch Demo.rt 5 Demo.fresh w' E)
    as (batch & Ht & Hfile & Hid & Hstart & _).
  exists batch. split; [exact Ht |]. split; [exact Hfile |].
  split; [exact Hid | exact Hstart].
Defined.

Lemma download_needs_the_folder_witness :
  serve Demo.rt (sent Demo.fresh) (image_request "http://x/img.jpg")
  = Some {| status_code := 200; content := "JFIF"; json_body := None |}
  ∧ is_dir "2024/images" Demo.fresh = false
  ∧ download_image Demo.rt (VStr "http://x/img.jpg") "2024/images"
      Demo.fresh
    = Raise OSError.
Proof.
  split; [reflexivity |]. split; [reflexivity |].
  exact (proj1
           (download_needs_the_folder Demo.rt "http://x/img.jpg"
              "2024/images" Demo.fresh
              {| status_code := 200; content := "JFIF"; json_body := None |}
              ltac:(discriminate) ltac:(discriminate) eq_refl eq_refl)
           (or_introl eq_refl)).
Defined.

Lemma failing_status_same_bodies :
  ∀ h q,
    json_body <$> serve Servers.failing_status_rt h q
    = json_body <$> serve Demo.rt h q.
Proof.
  intros h q. simpl. destruct (Demo.server h q); reflexivity.
Defined.

Lemma fetch_ignores_the_status_witness :
  (∀ n, clock Servers.failing_status_rt n = clock Demo.rt n)
  ∧ (∀ h q,
        json_body <$> serve Servers.failing_status_rt h q
        = json_body <$> serve Demo.rt h q)
  ∧ fetch_simulcast_anime Servers.failing_status_rt 5 Demo.fresh
    = fetch_simulcast_anime Demo.rt 5 Demo.fresh.
Proof.
  split; [intros n; reflexivity |].
  split; [exact failing_status_same_bodies |].
  exact (fetch_ignores_the_status Demo.rt Servers.failing_status_rt 5
           Demo.fresh (λ n, eq_refl) failing_status_same_bodies).
Defined.
